(** * gdal2mbtiles.vips: geometry engine, tile slicer and pyramid driver

    A shallow embedding of [gdal2mbtiles/vips.py] (Python 2: the module
    uses [xrange] and the [vipsCC] bindings, with
    [from __future__ import division]).

    Numbers.  Pixel sizes and tile sizes are Python [int]s and are
    modelled in [Z].  Scales and TMS offsets are Python numbers that may be
    [float]s; they are modelled by exact rationals [Q].  Every float that
    the module itself produces is a quotient of small integers by a power
    of two or by a tile size, so the exact model agrees with IEEE doubles
    on the magnitudes an image can have; NaN and infinities are outside
    the model.

    Image library.  [vipsCC.VImage.VImage] is an external collaborator.
    Its operations are the fields of the class [VipsImage], together with
    the one fact the module relies on: [affine], [embed] and
    [extract_area] return an image of the size they were asked for. *)

From Stdlib Require Import ZArith QArith Qround Lia Lqa String Ascii List.
From Stdlib Require Import DecimalString HexadecimalString.
From Stdlib.Strings Require Import Byte.
From stdpp Require Import base option list gmap strings.

Local Open Scope Z_scope.

(** ** Python built-ins used by the module *)

Module Py.

(** [a < b] on numbers. *)
Definition ltb (a b : Q) : bool := negb (Qle_bool b a).

(** [int(v)]: truncation towards zero. *)
Definition int (v : Q) : Z :=
  if Qle_bool 0 v then Qfloor v else Qceiling v.

(** [round(v)] of Python 2: nearest integer, ties away from zero;
    the result is an integral float. *)
Definition round (v : Q) : Q :=
  inject_Z (if Qle_bool 0 v then Qfloor (v + (1 # 2))
            else Qceiling (v - (1 # 2))).

(** [math.ceil(v)]: an integral float. *)
Definition ceil (v : Q) : Q := inject_Z (Qceiling v).

(** Number of elements of [xrange(start, stop, step)], [step <> 0]. *)
Definition xrange_len (start stop step : Z) : Z :=
  if 0 <? step then
    if start <? stop then (stop - start - 1) / step + 1 else 0
  else
    if stop <? start then (start - stop - 1) / (- step) + 1 else 0.

(** [range(start, stop)]. *)
Definition range (start stop : Z) : list Z := seqZ start (stop - start).

(** [str(n)] and ['{0}'.format(n)] for an [int]. *)
Definition str (n : Z) : string :=
  DecimalString.NilZero.string_of_int (Z.to_int n).

(** ['{0:x}'.format(n)] for an [int]: lowercase hexadecimal, with a
    leading minus sign for negative numbers. *)
Definition hex (n : Z) : string :=
  HexadecimalString.NilZero.string_of_int (Z.to_hex_int n).

(** [os.path.join(a, b)] of [posixpath]. *)
Definition path_join (a b : string) : string :=
  match b with
  | String "/"%char _ => b
  | _ =>
      match a with
      | EmptyString => b
      | _ =>
          if String.eqb (substring (String.length a - 1) 1 a) "/"
          then (a ++ b)%string
          else (a ++ "/" ++ b)%string
      end
  end.

End Py.

(** ** Exceptions and results *)

Inductive exn : Type :=
| InvalidScale (arg : string) (scale : Q)
    (** [ValueError] raised by the guards of [stretch] and [shrink] *)
| MisalignedImage (dim : string) (size tile : Z)
    (** [ValueError] raised by [slice] *)
| XrangeStepZero
    (** [ValueError: xrange() arg 3 must not be zero] *)
| ZeroDivisionError
| AssertionError
| TypeError.

Inductive result (A : Type) : Type :=
| Ok (a : A)
| Raise (e : exn).
Arguments Ok {A} a.
Arguments Raise {A} e.

Definition is_InvalidScale (e : exn) : bool :=
  match e with InvalidScale _ _ => true | _ => false end.

Definition raises {A} (r : result A) (p : exn -> bool) : Prop :=
  exists e, r = Raise e /\ p e = true.

(** [xrange(start, stop, step)]. *)
Definition xrange (start stop step : Z) : result (list Z) :=
  if step =? 0 then Raise XrangeStepZero
  else Ok ((fun i => start + i * step) <$> seqZ 0 (Py.xrange_len start stop step)).

(** ** XY *)

Record XY (A : Type) : Type := mkXY { XY_x : A; XY_y : A }.
Arguments mkXY {A} _ _.
Arguments XY_x {A} _.
Arguments XY_y {A} _.

(** ** The image library *)

Class VipsImage (Image : Type) : Type := {
  Xsize : Image -> Z;
  Ysize : Image -> Z;
  (** [affine(a, b, c, d, dx, dy, ox, oy, ow, oh)] *)
  affine : Image -> Q -> Q -> Q -> Q -> Q -> Q -> Z -> Z -> Z -> Z -> Image;
  (** [embed(type, x, y, width, height)] *)
  embed : Image -> Z -> Z -> Z -> Z -> Z -> Image;
  (** [extract_area(left, top, width, height)] of the base class *)
  vips_extract_area : Image -> Z -> Z -> Z -> Z -> Image;
  (** [tobuffer()]: the raw pixel bytes *)
  tobuffer : Image -> list byte;

  Xsize_affine : forall i a b c d dx dy ox oy ow oh,
    Xsize (affine i a b c d dx dy ox oy ow oh) = ow;
  Ysize_affine : forall i a b c d dx dy ox oy ow oh,
    Ysize (affine i a b c d dx dy ox oy ow oh) = oh;
  Xsize_embed : forall i t x y w h, Xsize (embed i t x y w h) = w;
  Ysize_embed : forall i t x y w h, Ysize (embed i t x y w h) = h;
  Xsize_extract_area : forall i l t w h, Xsize (vips_extract_area i l t w h) = w;
  Ysize_extract_area : forall i l t w h, Ysize (vips_extract_area i l t w h) = h
}.

(** ** class VImage *)

Section VImage.
Context {Image : Type} `{VipsImage Image}.

(** [from_vimage]: a new object sharing the attributes of [other]. *)
Definition from_vimage (other : Image) : Image := other.

Definition extract_area (self : Image) (left top width height : Z) : Image :=
  from_vimage (vips_extract_area self left top width height).

Definition stretch (self : Image) (xscale yscale : Q) : result Image :=
  if Py.ltb xscale 1 then Raise (InvalidScale "xscale" xscale)
  else if Py.ltb yscale 1 then Raise (InvalidScale "yscale" yscale)
  else
    let N := Py.int (inject_Z (Xsize self) * xscale) in
    let M := Py.int (inject_Z (Ysize self) * yscale) in
    let output_width := N in
    let output_height := M in
    if Xsize self - 1 =? 0 then Raise ZeroDivisionError
    else
      let a := (inject_Z (N - 1) / inject_Z (Xsize self - 1))%Q in
      let b := 0%Q in
      let c := 0%Q in
      if Ysize self - 1 =? 0 then Raise ZeroDivisionError
      else
        let d := (inject_Z (M - 1) / inject_Z (Ysize self - 1))%Q in
        let offset_x := 0%Q in
        let offset_y := 0%Q in
        let output_x := 0 in
        let output_y := 0 in
        Ok (from_vimage
              (affine self a b c d offset_x offset_y
                      output_x output_y output_width output_height)).

Definition shrink (self : Image) (xscale yscale : Q) : result Image :=
  if negb (Py.ltb 0 xscale && Qle_bool xscale 1)
  then Raise (InvalidScale "xscale" xscale)
  else if negb (Py.ltb 0 yscale && Qle_bool yscale 1)
  then Raise (InvalidScale "yscale" yscale)
  else
    let output_width := Py.int (inject_Z (Xsize self) * xscale) in
    let output_height := Py.int (inject_Z (Ysize self) * yscale) in
    let a := xscale in
    let b := 0%Q in
    let c := 0%Q in
    let d := yscale in
    let offset_x := ((a - 1) / 2)%Q in
    let offset_y := ((d - 1) / 2)%Q in
    let output_x := 0 in
    let output_y := 0 in
    Ok (from_vimage
          (affine self a b c d offset_x offset_y
                  output_x output_y output_width output_height)).

(** The local variables of [tms_align], in the order the method
    computes them.  [%] is Python's floored remainder, which is
    [Z.modulo]; a zero tile size is checked by [tms_align] itself. *)
Definition tms_align_x (tile_width : Z) (offset : XY Q) : Z :=
  Py.int (Py.round (XY_x offset * inject_Z tile_width)) mod tile_width.

Definition tms_align_y (self : Image) (tile_height : Z) (offset : XY Q) : Z :=
  Py.int (Py.round (inject_Z (Ysize self) - XY_y offset * inject_Z tile_height))
    mod tile_height.

Definition tms_align_tiles (size pad tile : Z) : Q :=
  Py.ceil ((inject_Z size + inject_Z pad / 2) / inject_Z tile).

Definition tms_align_width (self : Image) (tile_width : Z) (offset : XY Q) : Z :=
  let x := tms_align_x tile_width offset in
  let tiles_x := tms_align_tiles (Xsize self) x tile_width in
  Py.int (tiles_x * inject_Z tile_width).

Definition tms_align_height (self : Image) (tile_height : Z) (offset : XY Q) : Z :=
  let y := tms_align_y self tile_height offset in
  let tiles_y := tms_align_tiles (Ysize self) y tile_height in
  Py.int (tiles_y * inject_Z tile_height).

Definition tms_align (self : Image) (tile_width tile_height : Z)
           (offset : XY Q) : result Image :=
  let _type := 0 in
  if tile_width =? 0 then Raise ZeroDivisionError
  else
    let x := tms_align_x tile_width offset in
    if tile_height =? 0 then Raise ZeroDivisionError
    else
      let y := tms_align_y self tile_height offset in
      let width := tms_align_width self tile_width offset in
      let height := tms_align_height self tile_height offset in
      if (width =? Xsize self) && (height =? Ysize self) then
        if (x =? y) && (y =? 0) then Ok self else Raise AssertionError
      else Ok (from_vimage (embed self _type x y width height)).

End VImage.

(** ** Effects

    The module writes to the output directory.  A run is modelled by the
    list of the writes it performs, in program order, together with its
    outcome; the writes made before an exception stay in the list. *)

Inductive action (Image : Type) : Type :=
| Makedirs (path : string)
    (** [makedirs(path, ignore_exists=True)] *)
| RenderPng (image : Image) (filename : string)
    (** [pool.apply_async(func=_render_png, kwds=dict(filename=...))],
        completed by the [pool.join()] that ends the level *)
| Symlink (abssourcepath absfilepath : string).
    (** [os.symlink(relpath(abssourcepath, dirname(absfilepath)), absfilepath)] *)
Arguments Makedirs {Image} path.
Arguments RenderPng {Image} image filename.
Arguments Symlink {Image} abssourcepath absfilepath.

Definition io (Image A : Type) : Type := (list (action Image) * result A)%type.

Section IO.
Context {Image : Type}.

Definition ret {A} (a : A) : io Image A := ([], Ok a).
Definition raise {A} (e : exn) : io Image A := ([], Raise e).
Definition tell (a : action Image) : io Image unit := ([a], Ok tt).
Definition lift {A} (r : result A) : io Image A := ([], r).

Definition bind {A B} (m : io Image A) (k : A -> io Image B) : io Image B :=
  match m with
  | (l1, Ok a) => let (l2, r) := k a in (l1 ++ l2, r)
  | (l1, Raise e) => (l1, Raise e)
  end.

(** [for x in xs: s = body(x, s)] *)
Fixpoint for_each {S A} (xs : list A) (body : A -> S -> io Image S) (s : S)
  : io Image S :=
  match xs with
  | [] => ret s
  | x :: xs' => bind (body x s) (for_each xs' body)
  end.

(** A path is written by an action when a tile is rendered or linked
    there. *)
Definition entry_path (a : action Image) : option string :=
  match a with
  | Makedirs _ => None
  | RenderPng _ filename => Some filename
  | Symlink _ absfilepath => Some absfilepath
  end.

Definition is_entry (a : action Image) : bool :=
  match a with Makedirs _ => false | _ => true end.

(** The tiles (files and symlinks) written by a run. *)
Definition entries (l : list (action Image)) : list (action Image) :=
  List.filter is_entry l.
End IO.

Notation "'let*' x ':=' m 'in' k" := (bind m (fun x => k))
  (at level 10, x name, m at level 100, k at level 200,
   format "'[v' 'let*'  x  ':='  m  'in' '/' k ']'").

(** ** class TmsTile *)

Module TmsTile.
Section Def.
Context {Image : Type} `{VipsImage Image}.

Record t : Type := mk {
  image : Image;
  outputdir : string;
  offset : XY Z;
  resolution : option Z;
  hasher : list byte -> Z
}.

Definition get_hash (self : t) : Z := hasher self (tobuffer (image self)).

Definition create_symlink (self : t) (source filepath : string)
  : action Image :=
  let absfilepath := Py.path_join (outputdir self) filepath in
  let abssourcepath := Py.path_join (outputdir self) source in
  Symlink abssourcepath absfilepath.

Definition generate_filepath (key : Z) (resolution : option Z)
           (offset : XY Z) : string :=
  let filename :=
    (Py.str (XY_x offset) ++ "-" ++ Py.str (XY_y offset) ++ "-"
     ++ Py.hex key ++ ".png")%string in
  let resolution :=
    match resolution with None => EmptyString | Some r => Py.str r end in
  Py.path_join resolution filename.

Definition render (self : t) (seen : gmap Z string)
  : io Image (gmap Z string) :=
  let hashed := get_hash self in
  let filepath := generate_filepath hashed (resolution self) (offset self) in
  match seen !! hashed with
  | Some source =>
      let* _ := tell (create_symlink self source filepath) in
      ret seen
  | None =>
      let seen := <[hashed := filepath]> seen in
      let* _ := tell (RenderPng (image self)
                                (Py.path_join (outputdir self) filepath)) in
      ret seen
  end.
End Def.
Arguments t Image : clear implicits.
End TmsTile.

(** ** class TmsTiles *)

Module TmsTiles.
Section Def.
Context {Image : Type} `{VipsImage Image}.

Record t : Type := mk {
  image : Image;
  outputdir : string;
  tile_width : Z;
  tile_height : Z;
  offset : XY Q;
  resolution : option Z;
  hasher : list byte -> Z
}.

Definition image_width (self : t) : Z := Xsize (image self).
Definition image_height (self : t) : Z := Ysize (image self).

(** The tile built by the loop body of [_slice] at pixel [(x, y)]. *)
Definition tile_at (self : t) (x y : Z) : TmsTile.t Image :=
  let out := extract_area (image self) x y (tile_width self) (tile_height self) in
  let offset :=
    mkXY (Py.int (inject_Z x / inject_Z (tile_width self)
                  + XY_x (offset self))%Q)
         (Py.int (inject_Z (image_height self - y) / inject_Z (tile_height self)
                  + XY_y (offset self) - 1)%Q) in
  TmsTile.mk out (outputdir self) offset (resolution self) (hasher self).

Definition _slice (self : t) : io Image unit :=
  let seen : gmap Z string := ∅ in
  let* ys := lift (xrange 0 (image_height self) (tile_height self)) in
  let* _ :=
    for_each ys (fun y seen =>
      let* xs := lift (xrange 0 (image_width self) (tile_width self)) in
      for_each xs (fun x seen =>
        TmsTile.render (tile_at self x y) seen) seen) seen in
  (* pool.join() *)
  ret tt.

Definition slice (self : t) : io Image unit :=
  let* _ :=
    tell (Makedirs (match resolution self with
                    | None => outputdir self
                    | Some r => Py.path_join (outputdir self) (Py.str r)
                    end)) in
  if tile_width self =? 0 then raise ZeroDivisionError
  else if negb (image_width self mod tile_width self =? 0)
  then raise (MisalignedImage "width" (image_width self) (tile_width self))
  else if tile_height self =? 0 then raise ZeroDivisionError
  else if negb (image_height self mod tile_height self =? 0)
  then raise (MisalignedImage "height" (image_height self) (tile_height self))
  else _slice self.

(** [assert resolution >= 0 and resolution == (self.resolution - 1)];
    subtracting from [None] is a [TypeError]. *)
Definition downsample (self : t) (resolution' : Z) : result t :=
  if resolution' <? 0 then Raise AssertionError
  else
    match resolution self with
    | None => Raise TypeError
    | Some r0 =>
        if negb (resolution' =? r0 - 1) then Raise AssertionError
        else
          let offset' := mkXY (XY_x (offset self) / 2)%Q
                              (XY_y (offset self) / 2)%Q in
          match shrink (image self) (1 # 2) (1 # 2) with
          | Raise e => Raise e
          | Ok shrunk =>
              match tms_align shrunk (tile_width self) (tile_height self)
                              offset' with
              | Raise e => Raise e
              | Ok aligned =>
                  Ok (mk aligned (outputdir self)
                         (tile_width self) (tile_height self)
                         (mkXY (inject_Z (Py.int (XY_x offset')))
                               (inject_Z (Py.int (XY_y offset'))))
                         (Some resolution') (hasher self))
              end
          end
    end.

(** [assert resolution > self.resolution]: in Python 2 every [int] is
    greater than [None], and the subtraction that follows is then a
    [TypeError]. *)
Definition upsample (self : t) (resolution' : Z) : result t :=
  match resolution self with
  | None => Raise TypeError
  | Some r0 =>
      if negb (r0 <? resolution') then Raise AssertionError
      else
        let scale := inject_Z (2 ^ (resolution' - r0)) in
        let offset' := mkXY (XY_x (offset self) * scale)%Q
                            (XY_y (offset self) * scale)%Q in
        match stretch (image self) scale scale with
        | Raise e => Raise e
        | Ok stretched =>
            match tms_align stretched (tile_width self) (tile_height self)
                            offset' with
            | Raise e => Raise e
            | Ok aligned =>
                Ok (mk aligned (outputdir self)
                       (tile_width self) (tile_height self)
                       (mkXY (inject_Z (Py.int (XY_x offset')))
                             (inject_Z (Py.int (XY_y offset'))))
                       (Some resolution') (hasher self))
            end
        end
  end.
End Def.
Arguments t Image : clear implicits.
End TmsTiles.

(** ** image_pyramid

    [Dataset(inputfile)] and [VImage(inputfile)] read the input file; the
    file is modelled by what they return.  [TILE_SIDE] comes from
    [gdal2mbtiles.constants] and is a parameter. *)

Record InputFile (Image : Type) : Type := mkInputFile {
  input_image : Image;
  GetTmsExtents_lower_left : XY Q;
  GetNativeResolution : Z
}.
Arguments mkInputFile {Image} _ _ _.
Arguments input_image {Image} _.
Arguments GetTmsExtents_lower_left {Image} _.
Arguments GetNativeResolution {Image} _.

Section Pyramid.
Context {Image : Type} `{VipsImage Image}.
Variable TILE_SIDE : Z.

Definition image_pyramid (inputfile : InputFile Image) (outputdir : string)
           (min_resolution max_resolution : option Z)
           (hasher : list byte -> Z) : io Image unit :=
  let lower_left := GetTmsExtents_lower_left inputfile in
  let resolution := GetNativeResolution inputfile in
  let tiles := TmsTiles.mk (input_image inputfile) outputdir
                           TILE_SIDE TILE_SIDE lower_left
                           (Some resolution) hasher in
  let* _ := TmsTiles.slice tiles in
  let* tiles :=
    match min_resolution with
    | None => ret tiles
    | Some min_resolution =>
        for_each (reverse (Py.range min_resolution resolution))
          (fun res tiles =>
             let* tiles := lift (TmsTiles.downsample tiles res) in
             let* _ := TmsTiles.slice tiles in
             ret tiles) tiles
    end in
  match max_resolution with
  | None => ret tt
  | Some max_resolution =>
      let* _ :=
        for_each (Py.range (resolution + 1) (max_resolution + 1))
          (fun res tiles =>
             let* tiles := lift (TmsTiles.upsample tiles res) in
             let* _ := TmsTiles.slice tiles in
             ret tiles) tiles in
      ret tt
  end.

End Pyramid.

(** ** A raster implementation of the image interface

    One band, one byte per pixel, stored as a function of the pixel
    position.  Resampling is nearest-neighbour.  The instance shows that
    the interface can be implemented and gives the examples below
    something to run on. *)

Module Raster.

Record t : Type := mk {
  width : Z;
  height : Z;
  pixel : Z -> Z -> byte
}.

Definition inside (lo len i : Z) : bool := (lo <=? i) && (i <? lo + len).

Definition r_affine (i : t) (a b c d dx dy : Q) (ox oy ow oh : Z) : t :=
  mk ow oh (fun u v => pixel i (Py.int (inject_Z (u + ox) / a))
                               (Py.int (inject_Z (v + oy) / d))).

Definition r_embed (i : t) (type x y w h : Z) : t :=
  mk w h (fun u v =>
            if inside x (width i) u && inside y (height i) v
            then pixel i (u - x) (v - y) else x00).

Definition r_extract_area (i : t) (l t w h : Z) : Raster.t :=
  mk w h (fun u v => pixel i (l + u) (t + v)).

Definition r_tobuffer (i : t) : list byte :=
  v ← seqZ 0 (height i); u ← seqZ 0 (width i); [pixel i u v].

(** An image of one colour. *)
Definition plain (w h : Z) (colour : byte) : t := mk w h (fun _ _ => colour).

(** An image whose pixel at [(u, v)] is [f u v] reduced to a byte. *)
Definition of_fun (w h : Z) (f : Z -> Z -> Z) : t :=
  mk w h (fun u v =>
            match Byte.of_N (Z.to_N (f u v mod 256)) with
            | Some b => b
            | None => x00
            end).

End Raster.

#[export] Instance Raster_VipsImage : VipsImage Raster.t := {|
  Xsize := Raster.width;
  Ysize := Raster.height;
  affine := Raster.r_affine;
  embed := Raster.r_embed;
  vips_extract_area := Raster.r_extract_area;
  tobuffer := Raster.r_tobuffer;
  Xsize_affine := fun _ _ _ _ _ _ _ _ _ _ _ => eq_refl;
  Ysize_affine := fun _ _ _ _ _ _ _ _ _ _ _ => eq_refl;
  Xsize_embed := fun _ _ _ _ _ _ => eq_refl;
  Ysize_embed := fun _ _ _ _ _ _ => eq_refl;
  Xsize_extract_area := fun _ _ _ _ _ => eq_refl;
  Ysize_extract_area := fun _ _ _ _ _ => eq_refl
|}.

(** Two hashers for the examples: the sum of the bytes, and a hasher that
    maps every buffer to the same key. *)
Definition sum_hasher (buf : list byte) : Z :=
  foldr (fun b acc => Z.of_N (Byte.to_N b) + acc) 0 buf.


(** ** Vocabulary of the properties *)

(** [s] lies in the half-open interval (0.0, 1.0]. *)
Definition in_unit_interval (s : Q) : Prop := (0 < s /\ s <= 1)%Q.



Section SliceVocabulary.
Context {Image : Type} `{VipsImage Image}.

(** The path of a tile relative to its output directory, and the path
    at which it is written. *)
Definition filepath (t : TmsTile.t Image) : string :=
  TmsTile.generate_filepath (TmsTile.get_hash t) (TmsTile.resolution t)
                            (TmsTile.offset t).

Definition abspath (t : TmsTile.t Image) : string :=
  Py.path_join (TmsTile.outputdir t) (filepath t).

(** The pixel origins of the grid cells of an image, row by row from the
    top, each row from the left. *)
Definition grid (self : TmsTiles.t Image) : list (Z * Z) :=
  y ← (fun j => j * TmsTiles.tile_height self)
        <$> seqZ 0 (TmsTiles.image_height self / TmsTiles.tile_height self);
  x ← (fun i => i * TmsTiles.tile_width self)
        <$> seqZ 0 (TmsTiles.image_width self / TmsTiles.tile_width self);
  [(x, y)].

(** The tiles of a level in row-major order. *)
Definition dispatched (self : TmsTiles.t Image) : list (TmsTile.t Image) :=
  (fun c => TmsTiles.tile_at self c.1 c.2) <$> grid self.

Definition same_hash (t1 t2 : TmsTile.t Image) : bool :=
  TmsTile.get_hash t1 =? TmsTile.get_hash t2.

(** What deduplication by hash writes for the tile [t2], given the tiles
    dispatched before it: a symlink to the first earlier tile with the
    hash of [t2], or else a PNG file. *)
Definition dedup_action (earlier : list (TmsTile.t Image))
           (t2 : TmsTile.t Image) : action Image :=
  match List.find (fun t1 => same_hash t1 t2) earlier with
  | Some t1 =>
      Symlink (Py.path_join (TmsTile.outputdir t2) (filepath t1)) (abspath t2)
  | None => RenderPng (TmsTile.image t2) (abspath t2)
  end.

Fixpoint dedup_actions (earlier tiles : list (TmsTile.t Image))
  : list (action Image) :=
  match tiles with
  | [] => []
  | t :: tiles' => dedup_action earlier t :: dedup_actions (earlier ++ [t]) tiles'
  end.

(** The seen map after the tiles [earlier]: each hash is bound to the
    relative path of the first tile that has it. *)
Definition seen_after (earlier : list (TmsTile.t Image))
           (seen : gmap Z string) : Prop :=
  forall h,
    seen !! h
    = filepath <$> List.find (fun t1 => TmsTile.get_hash t1 =? h) earlier.

End SliceVocabulary.



(** ** Inputs of the examples *)



(** A 4 x 4 level at resolution 2 with 2 x 2 tiles. *)
Definition example_level : TmsTiles.t Raster.t :=
  TmsTiles.mk (Raster.of_fun 4 4 (fun u v => u / 2)) "out" 2 2
              (mkXY 1%Q 3%Q) (Some 2) sum_hasher.

(** ** Vocabulary for the pyramid driver *)








(** ** Vocabulary of the further properties *)


(** The directories a run creates, in order. *)
Definition made_dirs {Image : Type} (l : list (action Image)) : list string :=
  omap (fun a => match a with Makedirs path => Some path | _ => None end) l.

(** The directory of a level: the output directory, or its subdirectory
    named after the resolution. *)
Definition level_dir {Image : Type} `{VipsImage Image}
           (self : TmsTiles.t Image) : string :=
  match TmsTiles.resolution self with
  | None => TmsTiles.outputdir self
  | Some r => Py.path_join (TmsTiles.outputdir self) (Py.str r)
  end.

(** The name of a tile file: ['{x}-{y}-{key:x}.png']. *)
Definition tile_filename (key : Z) (offset : XY Z) : string :=
  (Py.str (XY_x offset) ++ "-" ++ Py.str (XY_y offset) ++ "-"
   ++ Py.hex key ++ ".png")%string.

(** The resolutions [image_pyramid] visits: the native one, then down to
    the minimum, then from above the native one up to the maximum. *)
Definition pyramid_levels (native : Z) (min_resolution max_resolution : option Z)
  : list Z :=
  native
  :: match min_resolution with
     | None => []
     | Some m => reverse (Py.range m native)
     end
  ++ match max_resolution with
     | None => []
     | Some M => Py.range (native + 1) (M + 1)
     end.


(** A level that [slice] accepts: positive tile sizes and an image that
    holds a whole number of tiles each way. *)
Definition aligned_level {Image : Type} `{VipsImage Image}
           (self : TmsTiles.t Image) : Prop :=
  0 < TmsTiles.tile_width self /\ 0 < TmsTiles.tile_height self
  /\ 0 <= TmsTiles.image_width self /\ 0 <= TmsTiles.image_height self
  /\ (TmsTiles.tile_width self | TmsTiles.image_width self)
  /\ (TmsTiles.tile_height self | TmsTiles.image_height self).

(** Two levels of one pyramid: the same output directory, tile sizes and
    hasher. *)
Definition same_pyramid {Image : Type} `{VipsImage Image}
           (t t' : TmsTiles.t Image) : Prop :=
  TmsTiles.outputdir t' = TmsTiles.outputdir t
  /\ TmsTiles.tile_width t' = TmsTiles.tile_width t
  /\ TmsTiles.tile_height t' = TmsTiles.tile_height t
  /\ TmsTiles.hasher t' = TmsTiles.hasher t.


(** The run creates the directories [expected] and returns a value that
    satisfies [P], or it raises after creating some first ones of them. *)
Definition dirs_ok {Image A : Type} (m : io Image A) (expected : list string)
           (P : A -> Prop) : Prop :=
  match snd m with
  | Ok a => P a /\ made_dirs (fst m) = expected
  | Raise _ => made_dirs (fst m) `prefix_of` expected
  end.

(** No character of [s] is a slash. *)
Fixpoint no_slash (s : string) : bool :=
  match s with
  | EmptyString => true
  | String c s' => negb (Ascii.eqb c "/") && no_slash s'
  end.

(** * Properties *)

(** ** Numbers *)

Lemma ltb_spec (a b : Q) : Py.ltb a b = true <-> (a < b)%Q.
Proof.
  unfold Py.ltb. rewrite negb_true_iff.
  split; intros Hab.
  - apply Qnot_le_lt. intros Hle. apply Qle_bool_iff in Hle. congruence.
  - destruct (Qle_bool b a) eqn:E; [|reflexivity].
    apply Qle_bool_iff in E. exfalso. exact (Qlt_not_le _ _ Hab E).
Qed.

Lemma ltb_false (a b : Q) : Py.ltb a b = false <-> (b <= a)%Q.
Proof.
  unfold Py.ltb. rewrite negb_false_iff. apply Qle_bool_iff.
Qed.


Lemma Qfloor_unique (n : Z) (q : Q) :
  (inject_Z n <= q)%Q -> (q < inject_Z (n + 1))%Q -> Qfloor q = n.
Proof.
  intros Hlo Hhi.
  pose proof (Qfloor_resp_le _ _ Hlo) as H1. rewrite Qfloor_Z in H1.
  pose proof (Qfloor_le q) as H2.
  assert (H3 : (inject_Z (Qfloor q) < inject_Z (n + 1))%Q)
    by (eapply Qle_lt_trans; eassumption).
  rewrite <- Zlt_Qlt in H3. lia.
Qed.

Lemma Qceiling_unique (n : Z) (q : Q) :
  (inject_Z (n - 1) < q)%Q -> (q <= inject_Z n)%Q -> Qceiling q = n.
Proof.
  intros Hlo Hhi.
  pose proof (Qceiling_resp_le _ _ Hhi) as H1. rewrite Qceiling_Z in H1.
  pose proof (Qle_ceiling q) as H2.
  assert (H3 : (inject_Z (n - 1) < inject_Z (Qceiling q))%Q)
    by (eapply Qlt_le_trans; eassumption).
  rewrite <- Zlt_Qlt in H3. lia.
Qed.

Lemma int_inject_Z (z : Z) : Py.int (inject_Z z) = z.
Proof.
  unfold Py.int. destruct (Qle_bool 0 (inject_Z z));
    [apply Qfloor_Z | apply Qceiling_Z].
Qed.

Lemma int_mul_inject_Z (a b : Z) : Py.int (inject_Z a * inject_Z b) = a * b.
Proof.
  rewrite <- inject_Z_mult. apply int_inject_Z.
Qed.

(** ** The guards of stretch and shrink *)

Section Guards.
Context {Image : Type} `{VipsImage Image}.

Lemma stretch_guard (self : Image) (xscale yscale : Q) :
  raises (stretch self xscale yscale) is_InvalidScale
  <-> (xscale < 1 \/ yscale < 1)%Q.
Proof.
  unfold raises, stretch.
  destruct (Py.ltb xscale 1) eqn:Ex.
  { apply ltb_spec in Ex. split; [auto | eauto]. }
  destruct (Py.ltb yscale 1) eqn:Ey.
  { apply ltb_spec in Ey. split; [auto | eauto]. }
  apply ltb_false in Ex, Ey.
  split.
  - intros (e & He & Hp).
    destruct (Xsize self - 1 =? 0); [inversion He; subst; discriminate|].
    destruct (Ysize self - 1 =? 0); [inversion He; subst; discriminate|].
    discriminate.
  - intros [Hlt | Hlt]; exfalso; eapply Qlt_not_le; eassumption.
Qed.

Lemma unit_interval_spec (s : Q) :
  Py.ltb 0 s && Qle_bool s 1 = true <-> in_unit_interval s.
Proof.
  unfold in_unit_interval.
  rewrite andb_true_iff, ltb_spec, Qle_bool_iff. reflexivity.
Qed.

Lemma shrink_guard (self : Image) (xscale yscale : Q) :
  raises (shrink self xscale yscale) is_InvalidScale
  <-> (~ in_unit_interval xscale \/ ~ in_unit_interval yscale).
Proof.
  unfold raises, shrink.
  destruct (Py.ltb 0 xscale && Qle_bool xscale 1) eqn:Ex; cbn [negb].
  - destruct (Py.ltb 0 yscale && Qle_bool yscale 1) eqn:Ey; cbn [negb].
    + apply unit_interval_spec in Ex, Ey. split.
      * intros (e & He & _). discriminate.
      * intros [Hn | Hn]; contradiction.
    + split; [|eauto]. intros _. right. rewrite <- unit_interval_spec.
      congruence.
  - split; [|eauto]. intros _. left. rewrite <- unit_interval_spec.
    congruence.
Qed.
End Guards.

(** C8: [stretch] raises the scale error exactly when a scale is below
    1.0, [shrink] raises it exactly when a scale is outside (0.0, 1.0],
    and a call that raises returns no image. *)
Theorem scale_guards {Image : Type} `{VipsImage Image}
        (self : Image) (xscale yscale : Q) :
  (raises (stretch self xscale yscale) is_InvalidScale
   <-> (xscale < 1 \/ yscale < 1)%Q)
  /\ (raises (shrink self xscale yscale) is_InvalidScale
      <-> (~ in_unit_interval xscale \/ ~ in_unit_interval yscale))
  /\ (forall e out, stretch self xscale yscale = Raise e ->
                    stretch self xscale yscale <> Ok out)
  /\ (forall e out, shrink self xscale yscale = Raise e ->
                    shrink self xscale yscale <> Ok out).
Proof.
  split; [apply stretch_guard|].
  split; [apply shrink_guard|].
  split; intros e out -> ; discriminate.
Qed.

(** ** Sizes produced by stretch *)

Lemma one_le_inject_Z (k : Z) : 1 <= k -> Py.ltb (inject_Z k) 1 = false.
Proof.
  intros Hk. apply ltb_false. change 1%Q with (inject_Z 1).
  now rewrite <- Zle_Qle.
Qed.

Section Stretch.
Context {Image : Type} `{VipsImage Image}.

Lemma stretch_integer (self : Image) (k : Z) :
  1 <= k -> Xsize self <> 1 -> Ysize self <> 1 ->
  exists out,
    stretch self (inject_Z k) (inject_Z k) = Ok out
    /\ Xsize out = Xsize self * k /\ Ysize out = Ysize self * k.
Proof.
  intros Hk HW HH. unfold stretch.
  rewrite (one_le_inject_Z k Hk).
  destruct (Z.eqb_spec (Xsize self - 1) 0) as [E|_]; [lia|].
  destruct (Z.eqb_spec (Ysize self - 1) 0) as [E|_]; [lia|].
  eexists. split; [reflexivity|]. unfold from_vimage.
  rewrite Xsize_affine, Ysize_affine, !int_mul_inject_Z. split; reflexivity.
Qed.
End Stretch.

(** C2 (as amended): for an image of width W and height H, both at
    least 2, and an integer k >= 1, [stretch(k, k)] returns an image of
    size (k*W, k*H); [stretch(2, 2)] yields (2W, 2H). *)
Theorem stretch_integer_size {Image : Type} `{VipsImage Image}
        (self : Image) (k : Z) :
  2 <= Xsize self -> 2 <= Ysize self -> 1 <= k ->
  exists out,
    stretch self (inject_Z k) (inject_Z k) = Ok out
    /\ Xsize out = k * Xsize self /\ Ysize out = k * Ysize self.
Proof.
  intros HW HH Hk.
  destruct (stretch_integer self k) as (out & E & Hx & Hy); [lia..|].
  exists out. repeat split; [exact E | lia | lia].
Qed.

Lemma stretch_integer_size_witness :
  exists out,
    stretch (Raster.plain 3 5 x00) (inject_Z 2) (inject_Z 2) = Ok out
    /\ Xsize out = 2 * 3 /\ Ysize out = 2 * 5.
Proof.
  exact (stretch_integer_size (Raster.plain 3 5 x00) 2
           ltac:(now vm_compute) ltac:(now vm_compute) ltac:(lia)).
Defined.

(** C2 (as stated) fails: [stretch(2, 2)] on a 3 x 5 image returns a
    6 x 10 image, not the 5 x 9 image that (2W-1, 2H-1) asks for. *)
Lemma stretch_size_counterexample :
  exists out,
    stretch (Raster.plain 3 5 x00) 2 2 = Ok out
    /\ (Xsize out, Ysize out) = (6, 10)
    /\ (Xsize out, Ysize out) <> (2 * 3 - (2 - 1), 2 * 5 - (2 - 1)).
Proof.
  eexists. split; [reflexivity|]. split; [reflexivity|].
  cbn. intros E. inversion E.
Qed.

(** ** tms_align *)


Lemma inject_Z_nonzero (z : Z) : z <> 0 -> ~ (inject_Z z == 0)%Q.
Proof.
  intros Hz E. apply Hz. unfold Qeq in E. cbn in E. lia.
Qed.

(** The number of tiles, as an integer quotient rounded up. *)
Lemma tiles_ceiling (size pad tile : Z) :
  tile <> 0 ->
  Qceiling ((inject_Z size + inject_Z pad / 2) / inject_Z tile)
  = - ((- (2 * size + pad)) / (2 * tile)).
Proof.
  intros Ht. unfold Qceiling. f_equal.
  rewrite Zdiv_Qdiv. apply Qfloor_comp.
  rewrite inject_Z_opp, inject_Z_plus, !inject_Z_mult.
  pose proof (inject_Z_nonzero tile Ht).
  change (inject_Z 2) with 2%Q. field. assumption.
Qed.


(** Rounding up to whole tiles, for a positive tile size. *)
Lemma round_up_bounds (a t : Z) :
  0 < t ->
  a <= 2 * (- ((- a) / (2 * t)) * t) < a + 2 * t.
Proof.
  intros Ht.
  pose proof (Z_div_mod_eq_full (- a) (2 * t)) as Hdm.
  pose proof (Z.mod_pos_bound (- a) (2 * t) ltac:(lia)) as Hb.
  nia.
Qed.

(** A padding offset that leaves the size unchanged is zero. *)
Lemma round_up_fixed (size pad tile : Z) :
  tile <> 0 ->
  (0 <= pad < tile \/ tile < pad <= 0) ->
  - ((- (2 * size + pad)) / (2 * tile)) * tile = size ->
  pad = 0.
Proof.
  intros Ht Hp E.
  pose proof (Z_div_mod_eq_full (- (2 * size + pad)) (2 * tile)) as Hdm.
  destruct (Z_lt_le_dec 0 tile) as [Hpos|Hneg].
  - pose proof (Z.mod_pos_bound (- (2 * size + pad)) (2 * tile) ltac:(lia)).
    nia.
  - pose proof (Z.mod_neg_bound (- (2 * size + pad)) (2 * tile) ltac:(lia)).
    nia.
Qed.

Lemma mod_range (a t : Z) :
  t <> 0 -> 0 <= a mod t < t \/ t < a mod t <= 0.
Proof.
  intros Ht. destruct (Z_lt_le_dec 0 t).
  - left. apply Z.mod_pos_bound. lia.
  - right. apply Z.mod_neg_bound. lia.
Qed.

Section Align.
Context {Image : Type} `{VipsImage Image}.
Variables (self : Image) (tile_width tile_height : Z) (offset : XY Q).

Local Abbreviation x := (tms_align_x tile_width offset).
Local Abbreviation y := (tms_align_y self tile_height offset).
Local Abbreviation width := (tms_align_width self tile_width offset).
Local Abbreviation height := (tms_align_height self tile_height offset).

Lemma tms_align_width_Z :
  tile_width <> 0 ->
  width = - ((- (2 * Xsize self + x)) / (2 * tile_width)) * tile_width.
Proof.
  intros Ht. unfold tms_align_width, tms_align_tiles, Py.ceil.
  rewrite int_mul_inject_Z, tiles_ceiling by assumption. reflexivity.
Qed.

Lemma tms_align_height_Z :
  tile_height <> 0 ->
  height = - ((- (2 * Ysize self + y)) / (2 * tile_height)) * tile_height.
Proof.
  intros Ht. unfold tms_align_height, tms_align_tiles, Py.ceil.
  rewrite int_mul_inject_Z, tiles_ceiling by assumption. reflexivity.
Qed.

(** The assertion of the no-change branch. *)
Lemma tms_align_unchanged_offsets :
  tile_width <> 0 -> tile_height <> 0 ->
  width = Xsize self -> height = Ysize self ->
  x = 0 /\ y = 0.
Proof.
  intros Hw Hh Ew Eh.
  rewrite tms_align_width_Z in Ew by assumption.
  rewrite tms_align_height_Z in Eh by assumption.
  split.
  - eapply round_up_fixed; [exact Hw | | exact Ew].
    apply mod_range; assumption.
  - eapply round_up_fixed; [exact Hh | | exact Eh].
    apply mod_range; assumption.
Qed.

Lemma tms_align_result :
  tile_width <> 0 -> tile_height <> 0 ->
  tms_align self tile_width tile_height offset
  = if (width =? Xsize self) && (height =? Ysize self)
    then Ok self
    else Ok (embed self 0 x y width height).
Proof.
  intros Hw Hh. unfold tms_align.
  destruct (Z.eqb_spec tile_width 0) as [|_]; [contradiction|].
  destruct (Z.eqb_spec tile_height 0) as [|_]; [contradiction|].
  destruct (Z.eqb_spec width (Xsize self)) as [Ew|Ew]; cbn [andb];
    [|reflexivity].
  destruct (Z.eqb_spec height (Ysize self)) as [Eh|Eh]; [|reflexivity].
  destruct (tms_align_unchanged_offsets Hw Hh Ew Eh) as [-> ->].
  reflexivity.
Qed.

Lemma tms_align_no_assertion :
  tms_align self tile_width tile_height offset <> Raise AssertionError.
Proof.
  destruct (Z.eq_dec tile_width 0) as [E|Hw].
  { unfold tms_align. rewrite E. discriminate. }
  destruct (Z.eq_dec tile_height 0) as [E|Hh].
  { unfold tms_align. rewrite E.
    destruct (tile_width =? 0); discriminate. }
  rewrite tms_align_result by assumption.
  destruct (_ && _); discriminate.
Qed.

Lemma tms_align_sizes :
  tile_width <> 0 -> tile_height <> 0 ->
  exists out,
    tms_align self tile_width tile_height offset = Ok out
    /\ Xsize out = width /\ Ysize out = height.
Proof.
  intros Hw Hh. rewrite tms_align_result by assumption.
  destruct (Z.eqb_spec width (Xsize self)) as [Ew|Ew]; cbn [andb].
  - destruct (Z.eqb_spec height (Ysize self)) as [Eh|Eh].
    + exists self. auto.
    + eexists. split; [reflexivity|].
      now rewrite Xsize_embed, Ysize_embed.
  - eexists. split; [reflexivity|].
    now rewrite Xsize_embed, Ysize_embed.
Qed.

End Align.




(** C6 (as amended): if the pixel paddings computed in [tms_align] are
    (0, 0) and the width and height of the image are already whole
    multiples of the tile width and tile height, then [tms_align] returns
    the input image itself. *)
Theorem tms_align_identity {Image : Type} `{VipsImage Image}
        (self : Image) (tile_width tile_height : Z) (offset : XY Q) :
  tile_width <> 0 -> tile_height <> 0 ->
  tms_align_x tile_width offset = 0 ->
  tms_align_y self tile_height offset = 0 ->
  (tile_width | Xsize self) -> (tile_height | Ysize self) ->
  tms_align self tile_width tile_height offset = Ok self.
Proof.
  intros Hw Hh Ex Ey [kx Ekx] [ky Eky].
  rewrite tms_align_result, tms_align_width_Z, tms_align_height_Z
    by assumption.
  rewrite Ex, Ey, Ekx, Eky.
  replace (- (2 * (kx * tile_width) + 0)) with (- kx * (2 * tile_width))
    by lia.
  replace (- (2 * (ky * tile_height) + 0)) with (- ky * (2 * tile_height))
    by lia.
  rewrite !Z.div_mul by lia. rewrite !Z.opp_involutive, !Z.eqb_refl.
  reflexivity.
Qed.

Lemma tms_align_identity_witness :
  tms_align (Raster.plain 512 256 x00) 256 256 (mkXY 3%Q (-2)%Q)
  = Ok (Raster.plain 512 256 x00).
Proof.
  exact (tms_align_identity (Raster.plain 512 256 x00) 256 256 (mkXY 3%Q (-2)%Q)
           ltac:(lia) ltac:(lia) ltac:(now vm_compute) ltac:(now vm_compute)
           ltac:(now exists 2) ltac:(now exists 1)).
Defined.

(** C6 (as stated) fails: for a 100 x 256 image at TMS offset (0, 0) with
    256-pixel tiles the paddings are (0, 0), yet the image is embedded in
    a 256 x 256 canvas and is not returned unchanged. *)
Lemma tms_align_identity_counterexample :
  tms_align_x 256 (mkXY 0%Q 0%Q) = 0
  /\ tms_align_y (Raster.plain 100 256 x00) 256 (mkXY 0%Q 0%Q) = 0
  /\ (exists out,
        tms_align (Raster.plain 100 256 x00) 256 256 (mkXY 0%Q 0%Q) = Ok out
        /\ (Xsize out, Ysize out) = (256, 256))
  /\ tms_align (Raster.plain 100 256 x00) 256 256 (mkXY 0%Q 0%Q)
     <> Ok (Raster.plain 100 256 x00).
Proof.
  split; [reflexivity|]. split; [reflexivity|].
  split; [eexists; split; reflexivity|].
  intros E.
  assert (Hw : Xsize (Raster.plain 100 256 x00) = 256).
  { injection E as <-. reflexivity. }
  discriminate Hw.
Qed.

(** C7: whenever the output dimensions computed in [tms_align] equal the
    input dimensions, the computed paddings are x = 0 and y = 0, so the
    assertion of the no-change branch holds and the input is returned. *)
Theorem tms_align_assertion_holds {Image : Type} `{VipsImage Image}
        (self : Image) (tile_width tile_height : Z) (offset : XY Q) :
  tile_width <> 0 -> tile_height <> 0 ->
  tms_align_width self tile_width offset = Xsize self ->
  tms_align_height self tile_height offset = Ysize self ->
  (tms_align_x tile_width offset = 0
   /\ tms_align_y self tile_height offset = 0)
  /\ tms_align self tile_width tile_height offset = Ok self
  /\ forall self' tile_width' tile_height' offset',
      tms_align (self' : Image) tile_width' tile_height' offset'
      <> Raise AssertionError.
Proof.
  intros Hw Hh Ew Eh.
  split; [now apply tms_align_unchanged_offsets|].
  split; [|intros; apply tms_align_no_assertion].
  rewrite tms_align_result, Ew, Eh, !Z.eqb_refl by assumption. reflexivity.
Qed.

Lemma tms_align_assertion_holds_witness :
  (tms_align_x 256 (mkXY 3%Q (-2)%Q) = 0
   /\ tms_align_y (Raster.plain 512 256 x00) 256 (mkXY 3%Q (-2)%Q) = 0)
  /\ tms_align (Raster.plain 512 256 x00) 256 256 (mkXY 3%Q (-2)%Q)
     = Ok (Raster.plain 512 256 x00)
  /\ forall self' tile_width' tile_height' offset',
      tms_align (self' : Raster.t) tile_width' tile_height' offset'
      <> Raise AssertionError.
Proof.
  exact (tms_align_assertion_holds (Raster.plain 512 256 x00) 256 256
           (mkXY 3%Q (-2)%Q) ltac:(lia) ltac:(lia)
           ltac:(now vm_compute) ltac:(now vm_compute)).
Defined.

(** ** Rounding in tms_align *)

Lemma int_round (v : Q) :
  Py.int (Py.round v)
  = if Qle_bool 0 v then Qfloor (v + (1 # 2)) else Qceiling (v - (1 # 2)).
Proof.
  unfold Py.round. apply int_inject_Z.
Qed.

Lemma inject_Z_succ (n : Z) : (inject_Z (n + 1) == inject_Z n + 1)%Q.
Proof.
  rewrite inject_Z_plus. reflexivity.
Qed.

Lemma inject_Z_pred (n : Z) : (inject_Z (n - 1) == inject_Z n - 1)%Q.
Proof.
  unfold Z.sub. rewrite inject_Z_plus. reflexivity.
Qed.











(** ** The effect monad *)

Section IOLaws.
Context {Image : Type}.

Lemma bind_ret_l {A B} (a : A) (k : A -> io Image B) : bind (ret a) k = k a.
Proof.
  unfold bind, ret. destruct (k a). reflexivity.
Qed.

Lemma bind_assoc {A B C} (m : io Image A) (k : A -> io Image B)
      (k' : B -> io Image C) :
  bind (bind m k) k' = bind m (fun a => bind (k a) k').
Proof.
  destruct m as [l1 [a|e]]; cbn; [|reflexivity].
  destruct (k a) as [l2 [b|e]]; cbn; [|reflexivity].
  destruct (k' b) as [l3 r]. now rewrite app_assoc.
Qed.

Lemma bind_ext {A B} (m : io Image A) (k k' : A -> io Image B) :
  (forall a, k a = k' a) -> bind m k = bind m k'.
Proof.
  intros E. destruct m as [l [a|e]]; cbn; [|reflexivity]. now rewrite E.
Qed.

Lemma for_each_app {S A} (xs ys : list A) (body : A -> S -> io Image S)
      (s : S) :
  for_each (xs ++ ys) body s = bind (for_each xs body s) (for_each ys body).
Proof.
  revert s. induction xs as [|x xs IH]; intros s; cbn [for_each app].
  - now rewrite bind_ret_l.
  - rewrite bind_assoc. apply bind_ext. intros s1. apply IH.
Qed.

Lemma for_each_ext {S A} (xs : list A) (body body' : A -> S -> io Image S)
      (s : S) :
  (forall x s, body x s = body' x s) ->
  for_each xs body s = for_each xs body' s.
Proof.
  intros E. revert s. induction xs as [|x xs IH]; intros s; cbn [for_each].
  - reflexivity.
  - rewrite E. apply bind_ext. intros s1. apply IH.
Qed.

Lemma for_each_fmap {S A B} (f : A -> B) (xs : list A)
      (body : B -> S -> io Image S) (s : S) :
  for_each (f <$> xs) body s = for_each xs (fun x => body (f x)) s.
Proof.
  revert s. induction xs as [|x xs IH]; intros s; cbn [for_each fmap list_fmap].
  - reflexivity.
  - apply bind_ext. intros s1. apply IH.
Qed.

(** Two nested loops visit the cells row by row. *)
Lemma for_each_nested {S A B} (ys : list B) (xs : list A)
      (body : A -> B -> S -> io Image S) (s : S) :
  for_each ys (fun y s => for_each xs (fun x => body x y) s) s
  = for_each (y ← ys; x ← xs; [(x, y)]) (fun c => body c.1 c.2) s.
Proof.
  revert s. induction ys as [|y ys IH]; intros s.
  - reflexivity.
  - rewrite bind_cons, for_each_app. cbn [for_each].
    assert (E : forall s, for_each (x ← xs; [(x, y)]) (fun c => body c.1 c.2) s
                          = for_each xs (fun x => body x y) s).
    { clear. induction xs as [|x xs IHx]; intros s; [reflexivity|].
      rewrite bind_cons. cbn [app for_each fst snd].
      apply bind_ext. intros s1. apply IHx. }
    rewrite E. apply bind_ext. intros s1. apply IH.
Qed.
End IOLaws.

(** ** xrange over a whole number of tiles *)

Lemma xrange_len_divisible (n t : Z) :
  0 < t -> 0 <= n -> (t | n) -> Py.xrange_len 0 n t = n / t.
Proof.
  intros Ht Hn [k ->]. unfold Py.xrange_len.
  rewrite Z.div_mul by lia.
  destruct (Z.ltb_spec 0 t) as [_|]; [|lia].
  destruct (Z.ltb_spec 0 (k * t)) as [Hk|Hk].
  - replace (k * t - 0 - 1) with ((k - 1) * t + (t - 1)) by lia.
    rewrite Z.div_add_l by lia. rewrite Z.div_small by lia. lia.
  - nia.
Qed.

Lemma xrange_divisible (n t : Z) :
  0 < t -> 0 <= n -> (t | n) ->
  xrange 0 n t = Ok ((fun i => i * t) <$> seqZ 0 (n / t)).
Proof.
  intros Ht Hn Hd. unfold xrange.
  destruct (Z.eqb_spec t 0) as [|_]; [lia|].
  rewrite xrange_len_divisible by assumption. reflexivity.
Qed.

(** ** Rendering with the seen map *)

Lemma find_app {A} (f : A -> bool) (l1 l2 : list A) :
  List.find f (l1 ++ l2)
  = match List.find f l1 with Some a => Some a | None => List.find f l2 end.
Proof.
  induction l1 as [|a l1 IH]; cbn; [reflexivity|].
  destruct (f a); [reflexivity | exact IH].
Qed.

Section Render.
Context {Image : Type} `{VipsImage Image}.
Implicit Types (t : TmsTile.t Image) (seen : gmap Z string).

Lemma seen_after_nil : seen_after [] ∅.
Proof.
  intros h. apply lookup_empty.
Qed.

Lemma render_step earlier seen t :
  seen_after earlier seen ->
  exists seen',
    TmsTile.render t seen = ([dedup_action earlier t], Ok seen')
    /\ seen_after (earlier ++ [t]) seen'.
Proof.
  intros Hinv. unfold TmsTile.render, dedup_action, same_hash.
  pose proof (Hinv (TmsTile.get_hash t)) as Hh.
  destruct (List.find (fun t1 => TmsTile.get_hash t1 =? TmsTile.get_hash t)
                      earlier) as [t1|] eqn:Ef; cbn in Hh; rewrite Hh.
  - exists seen. split; [reflexivity|].
    intros h. rewrite find_app, Hinv.
    destruct (List.find (fun t0 => TmsTile.get_hash t0 =? h) earlier)
      as [t0|] eqn:Ef'; [reflexivity|].
    cbn. destruct (Z.eqb_spec (TmsTile.get_hash t) h) as [<-|]; [|reflexivity].
    congruence.
  - eexists. split; [reflexivity|].
    intros h. rewrite find_app.
    destruct (Z.eqb_spec (TmsTile.get_hash t) h) as [<-|Hne].
    + rewrite lookup_insert_eq, Ef. cbn. now rewrite Z.eqb_refl.
    + rewrite lookup_insert_ne, Hinv by assumption.
      destruct (List.find (fun t0 => TmsTile.get_hash t0 =? h) earlier);
        [reflexivity|].
      cbn. destruct (Z.eqb_spec (TmsTile.get_hash t) h); [contradiction|].
      reflexivity.
Qed.

Lemma render_all earlier tiles seen :
  seen_after earlier seen ->
  exists seen',
    for_each tiles TmsTile.render seen
    = (dedup_actions earlier tiles, Ok seen').
Proof.
  revert earlier seen.
  induction tiles as [|t tiles IH]; intros earlier seen Hinv.
  - exists seen. reflexivity.
  - destruct (render_step earlier seen t Hinv) as (seen1 & E1 & Hinv1).
    destruct (IH _ _ Hinv1) as (seen2 & E2).
    exists seen2. cbn [for_each dedup_actions]. rewrite E1. cbn.
    rewrite E2. reflexivity.
Qed.






(** The run of [slice] on an image that holds a whole number of tiles. *)
Lemma slice_run (self : TmsTiles.t Image) :
  0 < TmsTiles.tile_width self -> 0 < TmsTiles.tile_height self ->
  0 <= TmsTiles.image_width self -> 0 <= TmsTiles.image_height self ->
  (TmsTiles.tile_width self | TmsTiles.image_width self) ->
  (TmsTiles.tile_height self | TmsTiles.image_height self) ->
  exists dir,
    TmsTiles.slice self
    = (Makedirs dir :: dedup_actions [] (dispatched self), Ok tt).
Proof.
  intros Htw Hth HW HH Hdw Hdh.
  eexists. unfold TmsTiles.slice, tell. cbn [bind].
  destruct (Z.eqb_spec (TmsTiles.tile_width self) 0) as [|_]; [lia|].
  destruct (Z.eqb_spec (TmsTiles.tile_height self) 0) as [|_]; [lia|].
  apply Z.mod_divide in Hdw; [|lia]. apply Z.mod_divide in Hdh; [|lia].
  rewrite Hdw, Hdh. cbn [Z.eqb negb].
  apply Z.mod_divide in Hdw; [|lia]. apply Z.mod_divide in Hdh; [|lia].
  unfold TmsTiles._slice.
  rewrite (xrange_divisible _ _ Hth HH Hdh).
  rewrite (xrange_divisible _ _ Htw HW Hdw).
  change (lift (Ok ?l)) with (@ret Image _ l). rewrite bind_ret_l.
  erewrite for_each_ext; cycle 1.
  { intros y s. rewrite bind_ret_l. reflexivity. }
  rewrite (for_each_nested _ _
             (fun x y s => TmsTile.render (TmsTiles.tile_at self x y) s)).
  fold (grid self).
  rewrite <- (for_each_fmap
                (fun c => TmsTiles.tile_at self c.1 c.2) (grid self)
                TmsTile.render).
  fold (dispatched self).
  destruct (render_all [] (dispatched self) ∅ seen_after_nil) as (seen' & E).
  rewrite E. cbn. rewrite app_nil_r. reflexivity.
Qed.
End Render.

(** ** The grid in row-major order *)




Section Grid.
Context {Image : Type} `{VipsImage Image}.
Variable self : TmsTiles.t Image.

Local Abbreviation cols :=
  (TmsTiles.image_width self / TmsTiles.tile_width self).
Local Abbreviation rows :=
  (TmsTiles.image_height self / TmsTiles.tile_height self).




End Grid.



(** ** Deduplication *)



Section Dedup.
Context {Image : Type} `{VipsImage Image}.


End Dedup.




(** ** upsample *)

Lemma pow2_ge_1 (n : Z) : 0 <= n -> 1 <= 2 ^ n.
Proof.
  intros Hn. pose proof (Z.pow_pos_nonneg 2 n ltac:(lia) Hn). lia.
Qed.



(** ** The pyramid driver *)

Section Post.
Context {Image : Type}.

Lemma snd_bind {A B} (m : io Image A) (k : A -> io Image B) :
  snd (bind m k)
  = match snd m with Ok a => snd (k a) | Raise e => Raise e end.
Proof.
  destruct m as [l [a|e]]; cbn; [|reflexivity]. now destruct (k a).
Qed.







End Post.

Section Driver.
Context {Image : Type} `{VipsImage Image}.









End Driver.

Section DriverBounds.
Context {Image : Type} `{VipsImage Image}.
Variables (TILE_SIDE : Z) (inputfile : InputFile Image) (outputdir : string)
          (hasher : list byte -> Z).

Local Abbreviation native := (GetNativeResolution inputfile).
Local Abbreviation tiles :=
  (TmsTiles.mk (input_image inputfile) outputdir TILE_SIDE TILE_SIDE
               (GetTmsExtents_lower_left inputfile) (Some native) hasher).




End DriverBounds.




(** ** Further properties of the geometry engine *)

Lemma int_nonneg (v : Q) : (0 <= v)%Q -> Py.int v = Qfloor v.
Proof.
  intros Hv. unfold Py.int. apply Qle_bool_iff in Hv. now rewrite Hv.
Qed.




(** X2: [stretch] fails with a division by zero exactly when both scales
    pass the guard and the image is one pixel wide or one pixel high. *)
Theorem stretch_zero_division {Image : Type} `{VipsImage Image}
        (self : Image) (xscale yscale : Q) :
  stretch self xscale yscale = Raise ZeroDivisionError
  <-> ((1 <= xscale)%Q /\ (1 <= yscale)%Q
       /\ (Xsize self = 1 \/ Ysize self = 1)).
Proof.
  unfold stretch.
  destruct (Py.ltb xscale 1) eqn:Ex.
  { apply ltb_spec in Ex. split; [discriminate|].
    intros (Hx & _). exfalso. eapply Qlt_not_le; eassumption. }
  destruct (Py.ltb yscale 1) eqn:Ey.
  { apply ltb_spec in Ey. split; [discriminate|].
    intros (_ & Hy & _). exfalso. eapply Qlt_not_le; eassumption. }
  apply ltb_false in Ex, Ey.
  destruct (Z.eqb_spec (Xsize self - 1) 0) as [EW|EW].
  { split; [|reflexivity]. intros _. repeat split; try assumption. left. lia. }
  destruct (Z.eqb_spec (Ysize self - 1) 0) as [EH|EH].
  { split; [|reflexivity]. intros _. repeat split; try assumption. right. lia. }
  split; [discriminate|]. intros (_ & _ & [E|E]); lia.
Qed.



(** X4: for scales in (0.0, 1.0] [shrink] calls [affine] with the matrix
    diag(xscale, yscale) and an offset that keeps the outer top-left
    corner (-0.5, -0.5) fixed and sends the outer bottom-right corner
    (W - 0.5, H - 0.5) to (W * xscale - 0.5, H * yscale - 0.5). *)
Theorem shrink_aligns_corners {Image : Type} `{VipsImage Image}
        (self : Image) (xscale yscale : Q) :
  in_unit_interval xscale -> in_unit_interval yscale ->
  exists offset_x offset_y N M,
    shrink self xscale yscale
    = Ok (affine self xscale 0 0 yscale offset_x offset_y 0 0 N M)
    /\ (xscale * - (1 # 2) + offset_x == - (1 # 2))%Q
    /\ (yscale * - (1 # 2) + offset_y == - (1 # 2))%Q
    /\ (xscale * (inject_Z (Xsize self) - (1 # 2)) + offset_x
        == inject_Z (Xsize self) * xscale - (1 # 2))%Q
    /\ (yscale * (inject_Z (Ysize self) - (1 # 2)) + offset_y
        == inject_Z (Ysize self) * yscale - (1 # 2))%Q.
Proof.
  intros Hx Hy. unfold shrink.
  rewrite (proj2 (unit_interval_spec xscale) Hx).
  rewrite (proj2 (unit_interval_spec yscale) Hy). cbn [negb].
  do 4 eexists. split; [reflexivity|].
  repeat split; field.
Qed.

Lemma shrink_aligns_corners_witness :
  exists offset_x offset_y N M,
    shrink (Raster.plain 5 8 x00) (1 # 2) (1 # 4)
    = Ok (affine (Raster.plain 5 8 x00) (1 # 2) 0 0 (1 # 4)
                 offset_x offset_y 0 0 N M)
    /\ ((1 # 2) * - (1 # 2) + offset_x == - (1 # 2))%Q
    /\ ((1 # 4) * - (1 # 2) + offset_y == - (1 # 2))%Q
    /\ ((1 # 2) * (inject_Z 5 - (1 # 2)) + offset_x
        == inject_Z 5 * (1 # 2) - (1 # 2))%Q
    /\ ((1 # 4) * (inject_Z 8 - (1 # 2)) + offset_y
        == inject_Z 8 * (1 # 4) - (1 # 2))%Q.
Proof.
  exact (shrink_aligns_corners (Raster.plain 5 8 x00) (1 # 2) (1 # 4)
           ltac:(split; now vm_compute) ltac:(split; now vm_compute)).
Defined.

(** X5: [tms_align] fails exactly when a tile size is zero, and then with
    a division by zero; for every other input it returns an image. *)
Theorem tms_align_outcome {Image : Type} `{VipsImage Image}
        (self : Image) (tile_width tile_height : Z) (offset : XY Q) :
  (tms_align self tile_width tile_height offset = Raise ZeroDivisionError
   <-> (tile_width = 0 \/ tile_height = 0))
  /\ (forall e, tms_align self tile_width tile_height offset = Raise e ->
                e = ZeroDivisionError).
Proof.
  destruct (Z.eq_dec tile_width 0) as [Ew|Ew].
  { unfold tms_align. rewrite Ew. cbn. split; [|now intros e [= <-]].
    split; [now left | reflexivity]. }
  destruct (Z.eq_dec tile_height 0) as [Eh|Eh].
  { unfold tms_align. rewrite Eh.
    destruct (Z.eqb_spec tile_width 0) as [|_]; [contradiction|]. cbn.
    split; [|now intros e [= <-]]. split; [now right | reflexivity]. }
  destruct (tms_align_sizes self tile_width tile_height offset Ew Eh)
    as (out & -> & _).
  split; [|discriminate]. split; [discriminate|]. intros [|]; contradiction.
Qed.

(** X6: for positive tile sizes the paddings computed by [tms_align] lie
    in [0, tile_width) and [0, tile_height), and the image returned has a
    width and height that are whole multiples of the tile sizes, are not
    smaller than the input's, and exceed them by less than one and a half
    tiles. *)
Theorem tms_align_padding_bounds {Image : Type} `{VipsImage Image}
        (self : Image) (tile_width tile_height : Z) (offset : XY Q) :
  0 < tile_width -> 0 < tile_height ->
  0 <= tms_align_x tile_width offset < tile_width
  /\ 0 <= tms_align_y self tile_height offset < tile_height
  /\ exists out,
      tms_align self tile_width tile_height offset = Ok out
      /\ (tile_width | Xsize out) /\ (tile_height | Ysize out)
      /\ Xsize self <= Xsize out /\ 2 * (Xsize out - Xsize self) < 3 * tile_width
      /\ Ysize self <= Ysize out /\ 2 * (Ysize out - Ysize self) < 3 * tile_height.
Proof.
  intros Hw Hh.
  assert (Hx : 0 <= tms_align_x tile_width offset < tile_width)
    by (apply Z.mod_pos_bound; assumption).
  assert (Hy : 0 <= tms_align_y self tile_height offset < tile_height)
    by (apply Z.mod_pos_bound; assumption).
  split; [exact Hx|]. split; [exact Hy|].
  destruct (tms_align_sizes self tile_width tile_height offset)
    as (out & E & Ex & Ey); [lia..|].
  exists out. split; [exact E|].
  rewrite Ex, Ey, tms_align_width_Z, tms_align_height_Z by lia.
  pose proof (round_up_bounds
                (2 * Xsize self + tms_align_x tile_width offset)
                tile_width Hw) as Bw.
  pose proof (round_up_bounds
                (2 * Ysize self + tms_align_y self tile_height offset)
                tile_height Hh) as Bh.
  split; [apply Z.divide_factor_r|]. split; [apply Z.divide_factor_r|].
  lia.
Qed.

Lemma tms_align_padding_bounds_witness :
  0 <= tms_align_x 256 (mkXY (5 # 128) (1 # 2)) < 256
  /\ 0 <= tms_align_y (Raster.plain 250 300 x00) 256 (mkXY (5 # 128) (1 # 2)) < 256
  /\ exists out,
      tms_align (Raster.plain 250 300 x00) 256 256 (mkXY (5 # 128) (1 # 2))
      = Ok out
      /\ (256 | Xsize out) /\ (256 | Ysize out)
      /\ 250 <= Xsize out /\ 2 * (Xsize out - 250) < 3 * 256
      /\ 300 <= Ysize out /\ 2 * (Ysize out - 300) < 3 * 256.
Proof.
  exact (tms_align_padding_bounds (Raster.plain 250 300 x00) 256 256
           (mkXY (5 # 128) (1 # 2)) ltac:(lia) ltac:(lia)).
Defined.

(** ** Further properties of the slicer *)

(** X7: when the tile sizes are not zero and the width or the height of
    the image is not a whole number of tiles, [slice] creates the
    directory of the level, writes no tile and raises the alignment
    error, for the width if the width is at fault and else for the
    height. *)
Theorem slice_misaligned {Image : Type} `{VipsImage Image}
        (self : TmsTiles.t Image) :
  TmsTiles.tile_width self <> 0 -> TmsTiles.tile_height self <> 0 ->
  (TmsTiles.image_width self mod TmsTiles.tile_width self <> 0
   \/ TmsTiles.image_height self mod TmsTiles.tile_height self <> 0) ->
  TmsTiles.slice self
  = ([Makedirs (level_dir self)],
     Raise (if TmsTiles.image_width self mod TmsTiles.tile_width self =? 0
            then MisalignedImage "height" (TmsTiles.image_height self)
                                 (TmsTiles.tile_height self)
            else MisalignedImage "width" (TmsTiles.image_width self)
                                 (TmsTiles.tile_width self)))
  /\ entries (fst (TmsTiles.slice self)) = [].
Proof.
  intros Hw Hh Hmis.
  assert (E : TmsTiles.slice self
              = ([Makedirs (level_dir self)],
                 Raise (if TmsTiles.image_width self mod TmsTiles.tile_width self =? 0
                        then MisalignedImage "height" (TmsTiles.image_height self)
                                             (TmsTiles.tile_height self)
                        else MisalignedImage "width" (TmsTiles.image_width self)
                                             (TmsTiles.tile_width self)))).
  { unfold TmsTiles.slice, tell, level_dir. cbn [bind].
    destruct (Z.eqb_spec (TmsTiles.tile_width self) 0) as [|_]; [contradiction|].
    destruct (Z.eqb_spec (TmsTiles.image_width self mod TmsTiles.tile_width self) 0)
      as [E0|_]; cbn [negb]; [|reflexivity].
    destruct (Z.eqb_spec (TmsTiles.tile_height self) 0) as [|_]; [contradiction|].
    destruct (Z.eqb_spec (TmsTiles.image_height self mod TmsTiles.tile_height self) 0)
      as [E1|_]; cbn [negb]; [|reflexivity].
    destruct Hmis; contradiction. }
  rewrite E. split; reflexivity.
Qed.

Lemma slice_misaligned_witness :
  let self := TmsTiles.mk (Raster.plain 1000 1000 x00) "out" 256 256
                          (mkXY 0%Q 0%Q) (Some 3) sum_hasher in
  TmsTiles.slice self
  = ([Makedirs (level_dir self)],
     Raise (if 1000 mod 256 =? 0
            then MisalignedImage "height" 1000 256
            else MisalignedImage "width" 1000 256))
  /\ entries (fst (TmsTiles.slice self)) = [].
Proof.
  exact (slice_misaligned
           (TmsTiles.mk (Raster.plain 1000 1000 x00) "out" 256 256
                        (mkXY 0%Q 0%Q) (Some 3) sum_hasher)
           ltac:(discriminate) ltac:(discriminate)
           ltac:(left; now vm_compute)).
Defined.

Lemma int_comp (v w : Q) : (v == w)%Q -> Py.int v = Py.int w.
Proof.
  intros E. unfold Py.int.
  rewrite (Qfloor_comp _ _ E), (Qceiling_comp _ _ E).
  destruct (Qle_bool 0 v) eqn:Ev, (Qle_bool 0 w) eqn:Ew; try reflexivity.
  - apply Qle_bool_iff in Ev. rewrite E in Ev. apply Qle_bool_iff in Ev.
    congruence.
  - apply Qle_bool_iff in Ew. rewrite <- E in Ew. apply Qle_bool_iff in Ew.
    congruence.
Qed.

(** X8: on a level whose offset is a pair of integers (ox, oy) and whose
    height is a whole number of tiles, the tile cut at column i and row j,
    counted from the top-left, gets the TMS coordinates
    (ox + i, oy + H / tile_height - 1 - j): columns count from the left,
    rows from the bottom, and the bottom-left tile has the coordinates of
    the level. *)
Theorem tile_tms_coordinates {Image : Type} `{VipsImage Image}
        (self : TmsTiles.t Image) (ox oy i j : Z) :
  TmsTiles.tile_width self <> 0 -> TmsTiles.tile_height self <> 0 ->
  (TmsTiles.tile_height self | TmsTiles.image_height self) ->
  TmsTiles.offset self = mkXY (inject_Z ox) (inject_Z oy) ->
  TmsTile.offset
    (TmsTiles.tile_at self (i * TmsTiles.tile_width self)
                      (j * TmsTiles.tile_height self))
  = mkXY (ox + i)
         (oy + TmsTiles.image_height self / TmsTiles.tile_height self - 1 - j).
Proof.
  intros Hw Hh [k Hk] Hoff. unfold TmsTiles.tile_at. cbn [TmsTile.offset].
  rewrite Hoff, Hk. cbn [XY_x XY_y]. rewrite Z.div_mul by assumption.
  pose proof (inject_Z_nonzero _ Hw). pose proof (inject_Z_nonzero _ Hh).
  f_equal.
  - rewrite <- (int_inject_Z (ox + i)). apply int_comp.
    rewrite inject_Z_plus, inject_Z_mult. field. assumption.
  - rewrite <- (int_inject_Z (oy + k - 1 - j)). apply int_comp.
    unfold Z.sub. rewrite !inject_Z_plus, !inject_Z_opp, !inject_Z_mult.
    field. assumption.
Qed.

Lemma tile_tms_coordinates_witness :
  TmsTile.offset (TmsTiles.tile_at example_level (1 * 2) (0 * 2))
  = mkXY (1 + 1) (3 + 4 / 2 - 1 - 0).
Proof.
  exact (tile_tms_coordinates example_level 1 3 1 0
           ltac:(discriminate) ltac:(discriminate)
           ltac:(now exists 2) eq_refl).
Defined.

Section PngCount.
Context {Image : Type} {vips : VipsImage Image}.
Implicit Types (earlier tiles : list (TmsTile.t Image)).



End PngCount.



(** ** Further properties of downsample and upsample *)

Lemma floor_half (n : Z) : Qfloor (inject_Z n * (1 # 2)) = n / 2.
Proof.
  unfold Qfloor, Qmult, inject_Z. cbn. now rewrite Z.mul_1_r.
Qed.

Lemma int_half (n : Z) : 0 <= n -> Py.int (inject_Z n * (1 # 2)) = n / 2.
Proof.
  intros Hn. rewrite int_nonneg; [apply floor_half|].
  apply Qmult_le_0_compat; [|discriminate].
  change 0%Q with (inject_Z 0). now rewrite <- Zle_Qle.
Qed.

Section Levels.
Context {Image : Type} `{VipsImage Image}.

Lemma shrink_half (img : Image) :
  shrink img (1 # 2) (1 # 2)
  = Ok (affine img (1 # 2) 0 0 (1 # 2)
               (((1 # 2) - 1) / 2) (((1 # 2) - 1) / 2) 0 0
               (Py.int (inject_Z (Xsize img) * (1 # 2)))
               (Py.int (inject_Z (Ysize img) * (1 # 2)))).
Proof.
  reflexivity.
Qed.

(** The sizes after [tms_align], for positive tile sizes. *)
Lemma tms_align_aligned (img : Image) (tile_width tile_height : Z)
      (offset : XY Q) :
  0 < tile_width -> 0 < tile_height ->
  exists out,
    tms_align img tile_width tile_height offset = Ok out
    /\ (tile_width | Xsize out) /\ (tile_height | Ysize out)
    /\ Xsize img <= Xsize out /\ Ysize img <= Ysize out.
Proof.
  intros Hw Hh.
  destruct (tms_align_sizes img tile_width tile_height offset)
    as (out & E & Ex & Ey); [lia..|].
  exists out. split; [exact E|].
  rewrite Ex, Ey, tms_align_width_Z, tms_align_height_Z by lia.
  pose proof (Z.mod_pos_bound
                (Py.int (Py.round (XY_x offset * inject_Z tile_width)))
                tile_width Hw) as Hx.
  pose proof (Z.mod_pos_bound
                (Py.int (Py.round (inject_Z (Ysize img)
                                   - XY_y offset * inject_Z tile_height)))
                tile_height Hh) as Hy.
  fold (tms_align_x tile_width offset) in Hx.
  fold (tms_align_y img tile_height offset) in Hy.
  pose proof (round_up_bounds
                (2 * Xsize img + tms_align_x tile_width offset)
                tile_width Hw) as Bw.
  pose proof (round_up_bounds
                (2 * Ysize img + tms_align_y img tile_height offset)
                tile_height Hh) as Bh.
  split; [apply Z.divide_factor_r|]. split; [apply Z.divide_factor_r|].
  lia.
Qed.

Lemma downsample_ok (self : TmsTiles.t Image) (res : Z) :
  aligned_level self ->
  TmsTiles.resolution self = Some (res + 1) -> 0 <= res ->
  exists t',
    TmsTiles.downsample self res = Ok t'
    /\ aligned_level t' /\ same_pyramid self t'
    /\ TmsTiles.resolution t' = Some res
    /\ TmsTiles.offset t'
       = mkXY (inject_Z (Py.int (XY_x (TmsTiles.offset self) / 2)))
              (inject_Z (Py.int (XY_y (TmsTiles.offset self) / 2)))
    /\ TmsTiles.image_width self / 2 <= TmsTiles.image_width t'
    /\ TmsTiles.image_height self / 2 <= TmsTiles.image_height t'.
Proof.
  intros (Htw & Hth & HW & HH & _ & _) Hres Hpos.
  unfold TmsTiles.image_width, TmsTiles.image_height in *.
  unfold TmsTiles.downsample.
  destruct (Z.ltb_spec res 0) as [|_]; [lia|]. rewrite Hres.
  destruct (Z.eqb_spec res (res + 1 - 1)) as [_|]; [|lia]. cbn [negb].
  rewrite shrink_half. cbv iota.
  match goal with
  | |- context [tms_align ?i ?w ?h ?o] =>
      destruct (tms_align_aligned i w h o Htw Hth)
        as (aligned & -> & Dw & Dh & Lw & Lh)
  end.
  rewrite Xsize_affine, int_half in Lw by assumption.
  rewrite Ysize_affine, int_half in Lh by assumption.
  eexists. split; [reflexivity|].
  pose proof (Z.div_pos (Xsize (TmsTiles.image self)) 2 HW ltac:(lia)).
  pose proof (Z.div_pos (Ysize (TmsTiles.image self)) 2 HH ltac:(lia)).
  unfold aligned_level, same_pyramid, TmsTiles.image_width,
    TmsTiles.image_height. cbn.
  repeat split; try assumption; lia.
Qed.

Lemma int_nonneg_le (v : Q) : (0 <= v)%Q -> 0 <= Py.int v.
Proof.
  intros Hv. rewrite int_nonneg by assumption.
  apply Qfloor_resp_le in Hv. change 0%Q with (inject_Z 0) in Hv.
  now rewrite Qfloor_Z in Hv.
Qed.

Lemma upsample_ok (self : TmsTiles.t Image) (r0 res : Z) :
  aligned_level self ->
  TmsTiles.image_width self <> 1 -> TmsTiles.image_height self <> 1 ->
  TmsTiles.resolution self = Some r0 -> r0 < res ->
  exists t',
    TmsTiles.upsample self res = Ok t'
    /\ aligned_level t' /\ same_pyramid self t'
    /\ TmsTiles.resolution t' = Some res
    /\ TmsTiles.offset t'
       = mkXY (inject_Z (Py.int (XY_x (TmsTiles.offset self)
                                 * inject_Z (2 ^ (res - r0)))))
              (inject_Z (Py.int (XY_y (TmsTiles.offset self)
                                 * inject_Z (2 ^ (res - r0)))))
    /\ TmsTiles.image_width self * 2 ^ (res - r0) <= TmsTiles.image_width t'
    /\ TmsTiles.image_height self * 2 ^ (res - r0) <= TmsTiles.image_height t'.
Proof.
  intros (Htw & Hth & HW & HH & _ & _) HW1 HH1 Hres Hlt.
  unfold TmsTiles.image_width, TmsTiles.image_height in *.
  unfold TmsTiles.upsample. rewrite Hres.
  destruct (Z.ltb_spec r0 res) as [_|]; [|lia]. cbn [negb]. cbv zeta.
  pose proof (pow2_ge_1 (res - r0) ltac:(lia)) as Hs.
  destruct (stretch_integer (TmsTiles.image self) (2 ^ (res - r0)) Hs HW1 HH1)
    as (stretched & -> & Sw & Sh).
  match goal with
  | |- context [tms_align ?i ?w ?h ?o] =>
      destruct (tms_align_aligned i w h o Htw Hth)
        as (aligned & -> & Dw & Dh & Lw & Lh)
  end.
  rewrite Sw in Lw. rewrite Sh in Lh.
  eexists. split; [reflexivity|].
  unfold aligned_level, same_pyramid, TmsTiles.image_width,
    TmsTiles.image_height. cbn.
  repeat split; try assumption; nia.
Qed.

Lemma slice_ok (self : TmsTiles.t Image) :
  aligned_level self -> snd (TmsTiles.slice self) = Ok tt.
Proof.
  intros (Htw & Hth & HW & HH & Dw & Dh).
  destruct (slice_run self Htw Hth HW HH Dw Dh) as (dir & ->). reflexivity.
Qed.
End Levels.

(** X10: on a level with an integer resolution r0, [downsample] fails its
    assertion exactly when the target resolution is negative or is not
    r0 - 1. *)
Theorem downsample_assertion {Image : Type} `{VipsImage Image}
        (self : TmsTiles.t Image) (r0 res : Z) :
  TmsTiles.resolution self = Some r0 ->
  (TmsTiles.downsample self res = Raise AssertionError
   <-> (res < 0 \/ res <> r0 - 1)).
Proof.
  intros Hres. unfold TmsTiles.downsample.
  destruct (Z.ltb_spec res 0) as [Hneg|Hpos].
  { split; [now left | reflexivity]. }
  rewrite Hres.
  destruct (Z.eqb_spec res (r0 - 1)) as [E|E]; cbn [negb].
  - rewrite shrink_half. cbv iota.
    match goal with
    | |- context [tms_align ?i ?w ?h ?o] =>
        pose proof (tms_align_no_assertion i w h o) as Hna;
        destruct (tms_align i w h o) as [aligned|e]
    end.
    + split; [discriminate | lia].
    + split; [congruence | lia].
  - split; [now right | reflexivity].
Qed.

Lemma downsample_assertion_witness :
  TmsTiles.downsample example_level 0 = Raise AssertionError
  <-> (0 < 0 \/ 0 <> 2 - 1).
Proof.
  exact (downsample_assertion example_level 2 0 eq_refl).
Defined.

(** X11: downsampling an aligned level at resolution r + 1 >= 1 to
    resolution r succeeds.  The new level keeps the output directory, the
    tile sizes and the hasher, has the old offset halved and truncated to
    integers, and holds an image of a whole number of tiles that is at
    least half the old width and height, rounded down; [slice] accepts
    it. *)
Theorem downsample_level {Image : Type} `{VipsImage Image}
        (self : TmsTiles.t Image) (res : Z) :
  aligned_level self ->
  TmsTiles.resolution self = Some (res + 1) -> 0 <= res ->
  exists t',
    TmsTiles.downsample self res = Ok t'
    /\ aligned_level t' /\ same_pyramid self t'
    /\ TmsTiles.resolution t' = Some res
    /\ TmsTiles.offset t'
       = mkXY (inject_Z (Py.int (XY_x (TmsTiles.offset self) / 2)))
              (inject_Z (Py.int (XY_y (TmsTiles.offset self) / 2)))
    /\ TmsTiles.image_width self / 2 <= TmsTiles.image_width t'
    /\ TmsTiles.image_height self / 2 <= TmsTiles.image_height t'
    /\ snd (TmsTiles.slice t') = Ok tt.
Proof.
  intros Hal Hres Hpos.
  destruct (downsample_ok self res Hal Hres Hpos)
    as (t' & E & Hal' & Hsame & Hr & Ho & Hw & Hh).
  exists t'. repeat split; try assumption; try apply Hal'; try apply Hsame.
  now apply slice_ok.
Qed.

Lemma downsample_level_witness :
  exists t',
    TmsTiles.downsample example_level 1 = Ok t'
    /\ aligned_level t' /\ same_pyramid example_level t'
    /\ TmsTiles.resolution t' = Some 1
    /\ TmsTiles.offset t'
       = mkXY (inject_Z (Py.int (1 / 2))) (inject_Z (Py.int (3 / 2)))
    /\ 4 / 2 <= TmsTiles.image_width t'
    /\ 4 / 2 <= TmsTiles.image_height t'
    /\ snd (TmsTiles.slice t') = Ok tt.
Proof.
  exact (downsample_level example_level 1
           ltac:(repeat split; try (now vm_compute); now exists 2)
           eq_refl ltac:(lia)).
Defined.

(** X12: upsampling an aligned level whose image is more than one pixel
    wide and high to any higher resolution succeeds.  The new level keeps
    the output directory, the tile sizes and the hasher, has the old
    offset times 2^(r - r0) truncated to integers, and holds an image of a
    whole number of tiles that is at least 2^(r - r0) times as wide and as
    high; [slice] accepts it. *)
Theorem upsample_level {Image : Type} `{VipsImage Image}
        (self : TmsTiles.t Image) (r0 r : Z) :
  aligned_level self ->
  TmsTiles.image_width self <> 1 -> TmsTiles.image_height self <> 1 ->
  TmsTiles.resolution self = Some r0 -> r0 < r ->
  exists t',
    TmsTiles.upsample self r = Ok t'
    /\ aligned_level t' /\ same_pyramid self t'
    /\ TmsTiles.resolution t' = Some r
    /\ TmsTiles.offset t'
       = mkXY (inject_Z (Py.int (XY_x (TmsTiles.offset self)
                                 * inject_Z (2 ^ (r - r0)))))
              (inject_Z (Py.int (XY_y (TmsTiles.offset self)
                                 * inject_Z (2 ^ (r - r0)))))
    /\ TmsTiles.image_width self * 2 ^ (r - r0) <= TmsTiles.image_width t'
    /\ TmsTiles.image_height self * 2 ^ (r - r0) <= TmsTiles.image_height t'
    /\ snd (TmsTiles.slice t') = Ok tt.
Proof.
  intros Hal HW HH Hres Hlt.
  destruct (upsample_ok self r0 r Hal HW HH Hres Hlt)
    as (t' & E & Hal' & Hsame & Hr & Ho & Hw & Hh).
  exists t'. repeat split; try assumption; try apply Hal'; try apply Hsame.
  now apply slice_ok.
Qed.

Lemma upsample_level_witness :
  exists t',
    TmsTiles.upsample example_level 4 = Ok t'
    /\ aligned_level t' /\ same_pyramid example_level t'
    /\ TmsTiles.resolution t' = Some 4
    /\ TmsTiles.offset t'
       = mkXY (inject_Z (Py.int (1 * inject_Z (2 ^ (4 - 2)))))
              (inject_Z (Py.int (3 * inject_Z (2 ^ (4 - 2)))))
    /\ 4 * 2 ^ (4 - 2) <= TmsTiles.image_width t'
    /\ 4 * 2 ^ (4 - 2) <= TmsTiles.image_height t'
    /\ snd (TmsTiles.slice t') = Ok tt.
Proof.
  exact (upsample_level example_level 2 4
           ltac:(repeat split; try (now vm_compute); now exists 2)
           ltac:(now vm_compute) ltac:(now vm_compute) eq_refl ltac:(lia)).
Defined.

Lemma round_integer (n : Z) : Py.int (Py.round (inject_Z n)) = n.
Proof.
  rewrite int_round.
  destruct (Qle_bool 0 (inject_Z n)).
  - apply Qfloor_unique; [|rewrite inject_Z_succ]; lra.
  - apply Qceiling_unique; [rewrite inject_Z_pred|]; lra.
Qed.

Lemma round_comp (v w : Q) :
  (v == w)%Q -> Py.int (Py.round v) = Py.int (Py.round w).
Proof.
  intros E. rewrite !int_round.
  assert (E1 : (v + (1 # 2) == w + (1 # 2))%Q) by now rewrite E.
  assert (E2 : (v - (1 # 2) == w - (1 # 2))%Q) by now rewrite E.
  rewrite (Qfloor_comp _ _ E1), (Qceiling_comp _ _ E2).
  destruct (Qle_bool 0 v) eqn:Ev, (Qle_bool 0 w) eqn:Ew; try reflexivity.
  - apply Qle_bool_iff in Ev. rewrite E in Ev. apply Qle_bool_iff in Ev.
    congruence.
  - apply Qle_bool_iff in Ew. rewrite <- E in Ew. apply Qle_bool_iff in Ew.
    congruence.
Qed.

(** X13: upsampling an aligned level whose offset is a pair of integers
    (ox, oy) by k = r - r0 levels needs no padding: the new image is
    exactly 2^k times as wide and as high, so the level has 2^k times as
    many tiles each way, and its offset is (ox * 2^k, oy * 2^k). *)
Theorem upsample_exact {Image : Type} `{VipsImage Image}
        (self : TmsTiles.t Image) (r0 r ox oy : Z) :
  aligned_level self ->
  TmsTiles.image_width self <> 1 -> TmsTiles.image_height self <> 1 ->
  TmsTiles.resolution self = Some r0 -> r0 < r ->
  TmsTiles.offset self = mkXY (inject_Z ox) (inject_Z oy) ->
  exists t',
    TmsTiles.upsample self r = Ok t'
    /\ TmsTiles.image_width t' = TmsTiles.image_width self * 2 ^ (r - r0)
    /\ TmsTiles.image_height t' = TmsTiles.image_height self * 2 ^ (r - r0)
    /\ TmsTiles.image_width t' / TmsTiles.tile_width t'
       = TmsTiles.image_width self / TmsTiles.tile_width self * 2 ^ (r - r0)
    /\ TmsTiles.image_height t' / TmsTiles.tile_height t'
       = TmsTiles.image_height self / TmsTiles.tile_height self * 2 ^ (r - r0)
    /\ TmsTiles.offset t'
       = mkXY (inject_Z (ox * 2 ^ (r - r0))) (inject_Z (oy * 2 ^ (r - r0))).
Proof.
  intros (Htw & Hth & HW & HH & [kw Ekw] & [kh Ekh]) HW1 HH1 Hres Hlt Hoff.
  unfold TmsTiles.image_width, TmsTiles.image_height in *.
  unfold TmsTiles.upsample. rewrite Hres.
  destruct (Z.ltb_spec r0 r) as [_|]; [|lia]. cbn [negb]. cbv zeta.
  set (s := 2 ^ (r - r0)).
  assert (Hs : 1 <= s) by (apply pow2_ge_1; lia).
  destruct (stretch_integer (TmsTiles.image self) s Hs HW1 HH1)
    as (stretched & -> & Sw & Sh).
  rewrite Hoff. cbn [XY_x XY_y]. rewrite <- !inject_Z_mult.
  assert (Ex : tms_align_x (TmsTiles.tile_width self)
                 (mkXY (inject_Z (ox * s)) (inject_Z (oy * s))) = 0).
  { unfold tms_align_x. cbn [XY_x]. rewrite <- inject_Z_mult, round_integer.
    apply Z.mod_mul. lia. }
  assert (Ey : tms_align_y stretched (TmsTiles.tile_height self)
                 (mkXY (inject_Z (ox * s)) (inject_Z (oy * s))) = 0).
  { unfold tms_align_y. cbn [XY_y]. rewrite <- inject_Z_mult.
    rewrite (round_comp _ (inject_Z ((kh * s - oy * s) * TmsTiles.tile_height self))).
    - rewrite round_integer. apply Z.mod_mul. lia.
    - rewrite Sh, Ekh. unfold Z.sub.
      rewrite !inject_Z_mult, !inject_Z_plus, !inject_Z_opp, !inject_Z_mult.
      ring. }
  rewrite tms_align_result by lia.
  rewrite tms_align_width_Z, tms_align_height_Z, Ex, Ey, Sw, Sh by lia.
  rewrite Ekw, Ekh.
  replace (- (2 * (kw * TmsTiles.tile_width self * s) + 0))
    with (- (kw * s) * (2 * TmsTiles.tile_width self)) by lia.
  replace (- (2 * (kh * TmsTiles.tile_height self * s) + 0))
    with (- (kh * s) * (2 * TmsTiles.tile_height self)) by lia.
  rewrite !Z.div_mul by lia. rewrite !Z.opp_involutive.
  replace (kw * s * TmsTiles.tile_width self)
    with (kw * TmsTiles.tile_width self * s) by lia.
  replace (kh * s * TmsTiles.tile_height self)
    with (kh * TmsTiles.tile_height self * s) by lia.
  rewrite !Z.eqb_refl. cbn [andb].
  eexists. split; [reflexivity|]. cbn.
  rewrite Sw, Sh, Ekw, Ekh, !int_inject_Z.
  replace (kw * TmsTiles.tile_width self * s)
    with (kw * s * TmsTiles.tile_width self) by lia.
  replace (kh * TmsTiles.tile_height self * s)
    with (kh * s * TmsTiles.tile_height self) by lia.
  rewrite !Z.div_mul by lia. repeat split; lia.
Qed.

Lemma upsample_exact_witness :
  exists t',
    TmsTiles.upsample example_level 4 = Ok t'
    /\ TmsTiles.image_width t' = 4 * 2 ^ (4 - 2)
    /\ TmsTiles.image_height t' = 4 * 2 ^ (4 - 2)
    /\ TmsTiles.image_width t' / TmsTiles.tile_width t' = 4 / 2 * 2 ^ (4 - 2)
    /\ TmsTiles.image_height t' / TmsTiles.tile_height t' = 4 / 2 * 2 ^ (4 - 2)
    /\ TmsTiles.offset t'
       = mkXY (inject_Z (1 * 2 ^ (4 - 2))) (inject_Z (3 * 2 ^ (4 - 2))).
Proof.
  exact (upsample_exact example_level 2 4 1 3
           ltac:(repeat split; try (now vm_compute); now exists 2)
           ltac:(now vm_compute) ltac:(now vm_compute) eq_refl ltac:(lia)
           eq_refl).
Defined.

(** ** Further properties of the pyramid driver *)

Section Dirs.
Context {Image : Type}.

Lemma fst_bind_eq {A B} (m : io Image A) (k : A -> io Image B) :
  fst (bind m k)
  = fst m ++ match snd m with Ok a => fst (k a) | Raise _ => [] end.
Proof.
  destruct m as [l [a|e]]; cbn.
  - now destruct (k a).
  - now rewrite app_nil_r.
Qed.

Lemma made_dirs_app (l1 l2 : list (action Image)) :
  made_dirs (l1 ++ l2) = made_dirs l1 ++ made_dirs l2.
Proof.
  apply omap_app.
Qed.

Lemma dirs_ok_ret {A} (a : A) (P : A -> Prop) :
  P a -> dirs_ok (@ret Image A a) [] P.
Proof.
  intros Ha. split; [exact Ha | reflexivity].
Qed.

Lemma dirs_ok_lift {A} (r : result A) (P : A -> Prop) :
  (forall a, r = Ok a -> P a) -> dirs_ok (@lift Image A r) [] P.
Proof.
  intros Hr. unfold dirs_ok, lift. cbn. destruct r as [a|e].
  - split; [now apply Hr | reflexivity].
  - reflexivity.
Qed.

Lemma dirs_ok_bind {A B} (m : io Image A) (k : A -> io Image B)
      (e1 e2 : list string) (P : A -> Prop) (Q : B -> Prop) :
  dirs_ok m e1 P -> (forall a, P a -> dirs_ok (k a) e2 Q) ->
  dirs_ok (bind m k) (e1 ++ e2) Q.
Proof.
  unfold dirs_ok. rewrite snd_bind, fst_bind_eq, made_dirs_app.
  destruct (snd m) as [a|e].
  - intros [Ha ->] Hk. specialize (Hk a Ha).
    destruct (snd (k a)) as [b|e].
    + destruct Hk as [Hb ->]. now split.
    + now apply prefix_app.
  - intros Hp _. cbn. rewrite app_nil_r. now apply prefix_app_r.
Qed.

Lemma dirs_ok_for_each {S A} (l : list A) (body : A -> S -> io Image S)
      (d : A -> string) (I : S -> Prop) (s : S) :
  (forall x s, I s -> dirs_ok (body x s) [d x] I) -> I s ->
  dirs_ok (for_each l body s) (d <$> l) I.
Proof.
  intros Hbody. revert s. induction l as [|x l IH]; intros s Hs.
  - now apply dirs_ok_ret.
  - cbn [for_each]. change (d <$> x :: l) with ([d x] ++ (d <$> l)).
    eapply dirs_ok_bind; [apply Hbody, Hs | exact IH].
Qed.

Lemma dirs_ok_weaken {A} (m : io Image A) (e : list string)
      (P Q : A -> Prop) :
  dirs_ok m e P -> (forall a, P a -> Q a) -> dirs_ok m e Q.
Proof.
  unfold dirs_ok. destruct (snd m); [|auto]. intros [Ha E] HPQ. auto.
Qed.

Lemma no_dirs_for_each {S A} (l : list A) (body : A -> S -> io Image S)
      (s : S) :
  (forall x s, made_dirs (fst (body x s)) = []) ->
  made_dirs (fst (for_each l body s)) = [].
Proof.
  intros Hbody. revert s. induction l as [|x l IH]; intros s.
  - reflexivity.
  - cbn [for_each]. rewrite fst_bind_eq, made_dirs_app, Hbody.
    destruct (snd (body x s)); [apply IH | reflexivity].
Qed.
End Dirs.

Section LevelOrder.
Context {Image : Type} `{VipsImage Image}.

Lemma render_no_dirs (t : TmsTile.t Image) (seen : gmap Z string) :
  made_dirs (fst (TmsTile.render t seen)) = [].
Proof.
  unfold TmsTile.render. destruct (seen !! TmsTile.get_hash t); reflexivity.
Qed.

Lemma _slice_no_dirs (self : TmsTiles.t Image) :
  made_dirs (fst (TmsTiles._slice self)) = [].
Proof.
  unfold TmsTiles._slice. rewrite fst_bind_eq. cbn [lift fst snd app].
  destruct (xrange 0 (TmsTiles.image_height self) (TmsTiles.tile_height self))
    as [ys|e]; [|reflexivity].
  rewrite fst_bind_eq, made_dirs_app.
  rewrite no_dirs_for_each.
  - match goal with |- context [snd ?m] => destruct (snd m) end; reflexivity.
  - intros y seen. rewrite fst_bind_eq. cbn [lift fst snd app].
    destruct (xrange 0 (TmsTiles.image_width self) (TmsTiles.tile_width self))
      as [xs|e]; [|reflexivity].
    apply no_dirs_for_each. intros x seen'. apply render_no_dirs.
Qed.

Lemma slice_dirs (self : TmsTiles.t Image) :
  made_dirs (fst (TmsTiles.slice self)) = [level_dir self].
Proof.
  unfold TmsTiles.slice. rewrite fst_bind_eq. cbn [tell fst snd].
  fold (level_dir self). rewrite made_dirs_app.
  change (made_dirs [Makedirs (level_dir self)]) with [level_dir self].
  rewrite <- (app_nil_r [level_dir self]) at 2. f_equal.
  destruct (TmsTiles.tile_width self =? 0); [reflexivity|].
  destruct (negb _); [reflexivity|].
  destruct (TmsTiles.tile_height self =? 0); [reflexivity|].
  destruct (negb _); [reflexivity|].
  apply _slice_no_dirs.
Qed.

Lemma slice_dirs_ok (self : TmsTiles.t Image) :
  dirs_ok (TmsTiles.slice self) [level_dir self] (fun _ => True).
Proof.
  unfold dirs_ok. rewrite slice_dirs.
  destruct (snd (TmsTiles.slice self)); [now split | reflexivity].
Qed.

Lemma downsample_fields (self t' : TmsTiles.t Image) (res : Z) :
  TmsTiles.downsample self res = Ok t' ->
  TmsTiles.outputdir t' = TmsTiles.outputdir self
  /\ TmsTiles.resolution t' = Some res.
Proof.
  unfold TmsTiles.downsample.
  destruct (res <? 0); [discriminate|].
  destruct (TmsTiles.resolution self) as [r0|]; [|discriminate].
  destruct (negb _); [discriminate|].
  destruct (shrink _ _ _) as [shrunk|]; [|discriminate].
  destruct (tms_align _ _ _ _) as [aligned|]; [|discriminate].
  intros [= <-]. split; reflexivity.
Qed.

Lemma upsample_fields (self t' : TmsTiles.t Image) (res : Z) :
  TmsTiles.upsample self res = Ok t' ->
  TmsTiles.outputdir t' = TmsTiles.outputdir self
  /\ TmsTiles.resolution t' = Some res.
Proof.
  unfold TmsTiles.upsample.
  destruct (TmsTiles.resolution self) as [r0|]; [|discriminate].
  destruct (negb _); [discriminate|]. cbv zeta.
  destruct (stretch _ _ _) as [stretched|]; [|discriminate].
  destruct (tms_align _ _ _ _) as [aligned|]; [|discriminate].
  intros [= <-]. split; reflexivity.
Qed.

Lemma level_step_dirs (outputdir : string)
      (change : TmsTiles.t Image -> Z -> result (TmsTiles.t Image))
      (res : Z) (tiles : TmsTiles.t Image) :
  (forall t t' r, change t r = Ok t' ->
                  TmsTiles.outputdir t' = TmsTiles.outputdir t
                  /\ TmsTiles.resolution t' = Some r) ->
  TmsTiles.outputdir tiles = outputdir ->
  dirs_ok (let* tiles := lift (change tiles res) in
           let* _ := TmsTiles.slice tiles in
           ret tiles)
          [Py.path_join outputdir (Py.str res)]
          (fun t => TmsTiles.outputdir t = outputdir).
Proof.
  intros Hfields Hout.
  change [Py.path_join outputdir (Py.str res)]
    with ([] ++ [Py.path_join outputdir (Py.str res)] ++ []).
  eapply dirs_ok_bind.
  - apply dirs_ok_lift
      with (P := fun t' => TmsTiles.outputdir t' = outputdir
                           /\ TmsTiles.resolution t' = Some res).
    intros t' E. destruct (Hfields _ _ _ E) as [-> ->]. now split.
  - intros t' [Ho Hr]. eapply dirs_ok_bind.
    + replace (Py.path_join outputdir (Py.str res)) with (level_dir t')
        by (unfold level_dir; now rewrite Hr, Ho).
      apply slice_dirs_ok.
    + intros _ _. now apply dirs_ok_ret.
Qed.
End LevelOrder.

Lemma image_pyramid_dirs_ok {Image : Type} `{VipsImage Image}
      (TILE_SIDE : Z) (inputfile : InputFile Image) (outputdir : string)
      (min_resolution max_resolution : option Z) (hasher : list byte -> Z) :
  dirs_ok (image_pyramid TILE_SIDE inputfile outputdir
                         min_resolution max_resolution hasher)
          ((fun r => Py.path_join outputdir (Py.str r))
             <$> pyramid_levels (GetNativeResolution inputfile)
                                min_resolution max_resolution)
          (fun _ => True).
Proof.
  unfold image_pyramid, pyramid_levels. cbv zeta.
  set (dir := fun r => Py.path_join outputdir (Py.str r)).
  rewrite fmap_cons, fmap_app.
  match goal with
  | |- dirs_ok _ (?d :: ?l) _ => change (d :: l) with ([d] ++ l)
  end.
  eapply dirs_ok_bind; [apply slice_dirs_ok|]. intros _ _.
  eapply dirs_ok_bind
    with (P := fun t => TmsTiles.outputdir t = outputdir).
  - destruct min_resolution as [m|]; [|now apply dirs_ok_ret].
    apply dirs_ok_for_each; [|reflexivity].
    intros res t Ht. apply level_step_dirs; [|exact Ht].
    intros ? ? ?. apply downsample_fields.
  - intros t Ht. destruct max_resolution as [M|]; [|now apply dirs_ok_ret].
    rewrite <- (app_nil_r (dir <$> _)).
    eapply dirs_ok_bind
      with (P := fun t => TmsTiles.outputdir t = outputdir).
    + apply dirs_ok_for_each; [|exact Ht].
      intros res t0 Ht0. apply level_step_dirs; [|exact Ht0].
      intros ? ? ?. apply upsample_fields.
    + intros _ _. now apply dirs_ok_ret.
Qed.

(** X14: [image_pyramid] creates one directory per level, in the order in
    which it visits the levels: the native resolution, then each lower one
    down to min_resolution, then each higher one from native + 1 up to
    max_resolution.  A run that returns has created all of them; a run
    that raises has created a prefix of the list. *)
Theorem image_pyramid_level_order {Image : Type} `{VipsImage Image}
        (TILE_SIDE : Z) (inputfile : InputFile Image) (outputdir : string)
        (min_resolution max_resolution : option Z) (hasher : list byte -> Z) :
  let run := image_pyramid TILE_SIDE inputfile outputdir
                           min_resolution max_resolution hasher in
  let expected :=
    (fun r => Py.path_join outputdir (Py.str r))
      <$> pyramid_levels (GetNativeResolution inputfile)
                         min_resolution max_resolution in
  made_dirs (fst run) `prefix_of` expected
  /\ (snd run = Ok tt -> made_dirs (fst run) = expected).
Proof.
  intros run expected.
  pose proof (image_pyramid_dirs_ok TILE_SIDE inputfile outputdir
                min_resolution max_resolution hasher) as Hok.
  fold run in Hok. fold expected in Hok.
  unfold dirs_ok in Hok. destruct (snd run) as [[]|e].
  - destruct Hok as [_ ->]. split; [reflexivity | reflexivity].
  - split; [exact Hok | discriminate].
Qed.

Section Succeeds.
Context {Image : Type}.



End Succeeds.

Section PyramidSucceeds.
Context {Image : Type} `{VipsImage Image}.

(** A level of a pyramid whose tiles are at least two pixels a side. *)
Local Abbreviation wide_level t :=
  (aligned_level t /\ 2 <= TmsTiles.tile_width t
   /\ 2 <= TmsTiles.tile_height t).






End PyramidSucceeds.



(** ** File names *)

Lemma no_slash_uint (d : Decimal.uint) :
  no_slash (DecimalString.NilEmpty.string_of_uint d) = true.
Proof.
  induction d; cbn; auto.
Qed.

Lemma str_shape (n : Z) :
  exists c s, Py.str n = String c s /\ c <> "/"%char /\ no_slash s = true.
Proof.
  unfold Py.str, DecimalString.NilZero.string_of_int.
  destruct (Z.to_int n) as [d|d].
  - destruct d; cbn;
      (eexists; eexists; split; [reflexivity|]; split;
       [discriminate | try reflexivity; apply no_slash_uint]).
  - exists "-"%char. eexists. split; [reflexivity|]. split; [discriminate|].
    destruct d; try reflexivity; apply (no_slash_uint (_ d)).
Qed.

Lemma last_char_no_slash (s : string) (n : nat) :
  no_slash s = true -> String.eqb (substring n 1 s) "/" = false.
Proof.
  revert n. induction s as [|c s IH]; intros n Hs.
  - now destruct n.
  - cbn in Hs. apply andb_true_iff in Hs. destruct Hs as [Hc Hs].
    destruct n as [|n]; cbn.
    + apply negb_true_iff in Hc. rewrite Hc. reflexivity.
    + now apply IH.
Qed.

Lemma path_join_relative (a b : string) (c : ascii) :
  c <> "/"%char ->
  Py.path_join a (String c b)
  = match a with
    | EmptyString => String c b
    | _ => if String.eqb (substring (String.length a - 1) 1 a) "/"
           then (a ++ String c b)%string
           else (a ++ "/" ++ String c b)%string
    end.
Proof.
  intros Hc. unfold Py.path_join.
  destruct c as [[] [] [] [] [] [] [] []]; try reflexivity.
  now contradiction Hc.
Qed.

(** X16: in flat mode the path of a tile relative to the output directory
    is the file name x-y-hash.png, and with a resolution r it is that name
    inside the directory r, r/x-y-hash.png, for every offset, key and
    resolution, negative ones included. *)
Theorem generate_filepath_format (key : Z) (offset : XY Z) :
  TmsTile.generate_filepath key None offset = tile_filename key offset
  /\ forall r,
      TmsTile.generate_filepath key (Some r) offset
      = (Py.str r ++ "/" ++ tile_filename key offset)%string.
Proof.
  unfold TmsTile.generate_filepath. fold (tile_filename key offset).
  destruct (str_shape (XY_x offset)) as (c & s & Ex & Hc & _).
  assert (Ef : exists rest, tile_filename key offset = String c rest).
  { unfold tile_filename. rewrite Ex. eexists. reflexivity. }
  destruct Ef as [rest ->].
  split.
  - now rewrite path_join_relative.
  - intros r. rewrite path_join_relative by assumption.
    destruct (str_shape r) as (c' & s' & -> & Hc' & Hs').
    rewrite last_char_no_slash; [reflexivity|].
    cbn. rewrite Hs'. apply Ascii.eqb_neq in Hc'. now rewrite Hc'.
Qed.

(** ** More on rendering, flat slicing and stretching *)

(** X17: [render] writes exactly one entry, at the path of the tile, and
    afterwards the seen map binds the hash of the tile; a binding that was
    in the map before is never changed, so the first tile with a hash
    keeps it. *)
Theorem render_keeps_seen {Image : Type} `{VipsImage Image}
        (t : TmsTile.t Image) (seen : gmap Z string) :
  exists a seen',
    TmsTile.render t seen = ([a], Ok seen')
    /\ entry_path a = Some (abspath t)
    /\ (forall h p, seen !! h = Some p -> seen' !! h = Some p)
    /\ is_Some (seen' !! TmsTile.get_hash t)
    /\ (seen !! TmsTile.get_hash t = None ->
        seen' !! TmsTile.get_hash t = Some (filepath t)
        /\ a = RenderPng (TmsTile.image t) (abspath t)).
Proof.
  unfold TmsTile.render. fold (filepath t).
  destruct (seen !! TmsTile.get_hash t) as [source|] eqn:Es.
  - do 2 eexists. split; [reflexivity|]. split; [reflexivity|].
    split; [auto|]. split; [now exists source | discriminate].
  - do 2 eexists. split; [reflexivity|]. split; [reflexivity|].
    split; [|split].
    + intros h p Hh. rewrite lookup_insert_ne; [exact Hh | congruence].
    + rewrite lookup_insert_eq. now eexists.
    + intros _. rewrite lookup_insert_eq. split; reflexivity.
Qed.




